(** * mii-lib: record scanner, field decoder and timestamp decoder

    A shallow embedding of [src/mii/extractor.py], [src/mii/reader.py] and
    [src/mii/timestamp.py], with the properties stated about them.

    Conventions.
    - A Python [bytes] value is a [list byte]; a byte is read as a number
      with [Byte.to_N].
    - A Python [int] is a [Z] (a counter that only grows from 0 is a [nat]).
    - A Python [str] made of ASCII characters (file names, messages, the
      output of [hex()] and [format(b, "08b")]) is a [string]; a decoded
      name, which may hold any code point, is a [list N].
    - A call that may raise returns an [outcome]: [Return v] or [Raise e]. *)

From Stdlib Require Import ZArith NArith Strings.Byte Strings.Ascii.
From Stdlib Require Import DecimalString DecimalNat DecimalPos DecimalZ.
From stdpp Require Import gmap strings list.

Local Open Scope Z_scope.

Abbreviation bytes := (list byte).

#[global] Instance byte_eq_dec : EqDecision byte := Byte.byte_eq_dec.

(** ** Exceptions and outcomes *)

Inductive exc : Type :=
| ValueError (msg : string)
| IndexError
| UnicodeDecodeError
| OverflowError
| FileNotFoundError
| PermissionError
| IsADirectoryError
| NotADirectoryError
| FileExistsError
| MiiExtractionError (msg : string).

Inductive outcome (A : Type) : Type :=
| Return (a : A)
| Raise (e : exc).
Arguments Return {A} a.
Arguments Raise {A} e.

(** Sequencing: an exception raised by [m] skips [k].  With these instances
    [x ← m; k] is stdpp's notation for it. *)
#[global] Instance outcome_ret : MRet outcome := @Return.
#[global] Instance outcome_bind : MBind outcome := λ A B k m,
  match m with
  | Return a => k a
  | Raise e => Raise e
  end.

Definition returns {A} (m : outcome A) : Prop := exists a, m = Return a.

(** ** Python built-ins used by the code *)

Module Py.

(** [str(n)] for an integer. *)
Definition str_int (n : Z) : string := NilZero.string_of_int (Z.to_int n).

(** [s[i:j]] and [s[i:]] on a string, for indices that are not negative. *)
Definition slice (s : string) (i j : nat) : string := String.substring i (j - i) s.
Definition slice_from (s : string) (i : nat) : string :=
  String.substring i (String.length s - i) s.

(** [s[i]]: raises [IndexError] out of range. *)
Definition index (s : string) (i : nat) : outcome string :=
  match String.get i s with
  | Some c => Return (String c "")
  | None => Raise IndexError
  end.

(** The value of a digit in [int(s, base)]. *)
Definition digit_value (c : ascii) : option Z :=
  let n := Z.of_N (Ascii.N_of_ascii c) in
  if (48 <=? n) && (n <=? 57) then Some (n - 48)
  else if (97 <=? n) && (n <=? 122) then Some (n - 87)
  else if (65 <=? n) && (n <=? 90) then Some (n - 55)
  else None.

Fixpoint int_digits (base acc : Z) (s : string) : option Z :=
  match s with
  | EmptyString => Some acc
  | String c r =>
      match digit_value c with
      | Some d => if d <? base then int_digits base (acc * base + d) r else None
      | None => None
      end
  end.

(** [int(s, base)] on a string of digits: the code only calls it on slices
    of [hex()] and [format(b, "08b")] output, which hold no sign, blank,
    underscore or prefix.  The empty string and a character that is not a
    digit of the base raise [ValueError]. *)
Definition int (s : string) (base : Z) : outcome Z :=
  let err := ValueError ("invalid literal for int() with base " +:+ str_int base
                         +:+ ": '" +:+ s +:+ "'") in
  match s with
  | EmptyString => Raise err
  | _ => match int_digits base 0 s with
         | Some v => Return v
         | None => Raise err
         end
  end.

(** [bs.hex()]: two lowercase hexadecimal digits per byte. *)
Definition hex_digit (n : N) : ascii :=
  match n with
  | 0 => "0" | 1 => "1" | 2 => "2" | 3 => "3" | 4 => "4" | 5 => "5"
  | 6 => "6" | 7 => "7" | 8 => "8" | 9 => "9" | 10 => "a" | 11 => "b"
  | 12 => "c" | 13 => "d" | 14 => "e" | _ => "f"
  end%N%char.

Definition hex_of_byte (b : byte) : string :=
  String (hex_digit (Byte.to_N b / 16)) (String (hex_digit (Byte.to_N b mod 16)) "").

Fixpoint hex (bs : bytes) : string :=
  match bs with
  | [] => ""
  | b :: r => hex_of_byte b +:+ hex r
  end.

(** [format(b, "08b")]: the eight binary digits of a byte, most significant
    first. *)
Definition bin_digit (b : bool) : ascii := if b then "1"%char else "0"%char.

Definition format_08b (b : byte) : string :=
  let n := Byte.to_N b in
  foldr (λ i acc, String (bin_digit (N.testbit n i)) acc) EmptyString
        [7; 6; 5; 4; 3; 2; 1; 0]%N.

(** [s.upper()] on an ASCII string. *)
Definition upper_char (c : ascii) : ascii :=
  let n := Ascii.N_of_ascii c in
  if ((97 <=? n) && (n <=? 122))%N then Ascii.ascii_of_N (n - 32) else c.

Fixpoint upper (s : string) : string :=
  match s with
  | EmptyString => EmptyString
  | String c r => String (upper_char c) (upper r)
  end.

(** The code points of an ASCII string literal. *)
Fixpoint code_points (s : string) : list N :=
  match s with
  | EmptyString => []
  | String c r => Ascii.N_of_ascii c :: code_points r
  end.

(** [s.find(sub)] on bytes: the lowest index where [sub] starts, or [-1]. *)
Fixpoint find_from (sub s : bytes) (i : Z) : Z :=
  match s with
  | [] => if decide (sub = []) then i else -1
  | _ :: r => if decide (take (length sub) s = sub) then i else find_from sub r (i + 1)
  end.

Definition find (s sub : bytes) : Z := find_from sub s 0.

(** [s.rstrip(c)] on a sequence of code points, for a single character [c]. *)
Fixpoint rstrip (c : N) (s : list N) : list N :=
  match s with
  | [] => []
  | x :: r =>
      match rstrip c r with
      | [] => if decide (x = c) then [] else [x]
      | r' => x :: r'
      end
  end.

(** *** [bs.decode("utf-16be")], with the default strict error handling.

    The bytes are taken two by two as 16-bit code units.  A unit outside
    D800..DFFF is a character; a high surrogate (D800..DBFF) followed by a
    low one (DC00..DFFF) is one character above FFFF; an odd byte left at
    the end, a high surrogate that is not followed by a low one, and a low
    surrogate on its own raise [UnicodeDecodeError]. *)
Definition is_high_surrogate (u : N) : bool := ((0xD800 <=? u) && (u <=? 0xDBFF))%N.
Definition is_low_surrogate (u : N) : bool := ((0xDC00 <=? u) && (u <=? 0xDFFF))%N.

Fixpoint code_units_be (bs : bytes) : option (list N) :=
  match bs with
  | [] => Some []
  | [_] => None
  | hi :: lo :: r => cons (Byte.to_N hi * 256 + Byte.to_N lo)%N <$> code_units_be r
  end.

Fixpoint decode_units (us : list N) : option (list N) :=
  match us with
  | [] => Some []
  | u :: r =>
      if is_high_surrogate u then
        match r with
        | l :: r2 =>
            if is_low_surrogate l
            then cons (0x10000 + (u - 0xD800) * 0x400 + (l - 0xDC00))%N <$> decode_units r2
            else None
        | [] => None
        end
      else if is_low_surrogate u then None
      else cons u <$> decode_units r
  end.

Definition decode_utf16be (bs : bytes) : outcome (list N) :=
  match code_units_be bs ≫= decode_units with
  | Some s => Return s
  | None => Raise UnicodeDecodeError
  end.

(** [l[i]] on a list: raises [IndexError] out of range. *)
Definition getitem {A} (l : list A) (i : nat) : outcome A :=
  match l !! i with
  | Some x => Return x
  | None => Raise IndexError
  end.

(** [f"{n:05d}"] for [n >= 0]: the decimal digits, with zeros in front up to
    a width of five. *)
Fixpoint zeros (k : nat) : string :=
  match k with
  | O => EmptyString
  | S k' => String "0" (zeros k')
  end.

Definition format_05d (n : nat) : string :=
  let digits := NilEmpty.string_of_uint (Nat.to_uint n) in
  zeros (5 - String.length digits) +:+ digits.

(** [f.seek(pos); f.read(n)] on a file whose content is [data]. *)
Definition read_at (data : bytes) (pos n : nat) : bytes := take n (drop pos data).

(** *** [datetime] and [timedelta], at a granularity of one second.

    A [datetime] is held as its proleptic Gregorian day number
    ([toordinal()], 0001-01-01 is day 1) and the second of that day. *)

Record datetime := { dt_ordinal : Z; dt_second : Z }.
Record timedelta := { td_days : Z; td_seconds : Z }.

Definition is_leap (y : Z) : bool :=
  (y mod 4 =? 0) && (negb (y mod 100 =? 0) || (y mod 400 =? 0)).

Definition days_before_year (y : Z) : Z :=
  let p := y - 1 in p * 365 + p / 4 - p / 100 + p / 400.

Definition days_in_month (y m : Z) : Z :=
  if m =? 2 then (if is_leap y then 29 else 28)
  else if (m =? 4) || (m =? 6) || (m =? 9) || (m =? 11) then 30 else 31.

Fixpoint days_before_month_aux (y : Z) (m : nat) : Z :=
  match m with
  | O => 0
  | S k => days_before_month_aux y k + days_in_month y (Z.of_nat (S k))
  end.

Definition days_before_month (y m : Z) : Z :=
  days_before_month_aux y (Z.to_nat (m - 1)).

(** [datetime(y, m, d)]: midnight of that day. *)
Definition datetime_ymd (y m d : Z) : datetime :=
  {| dt_ordinal := days_before_year y + days_before_month y m + d; dt_second := 0 |}.

Definition MAXORDINAL : Z := 3652059.

(** [timedelta(seconds=s)]: normalised to days and [0 <= seconds < 86400]. *)
Definition timedelta_of_seconds (s : Z) : outcome timedelta :=
  let d := s / 86400 in
  if Z.abs d >? 999999999 then Raise OverflowError
  else Return {| td_days := d; td_seconds := s mod 86400 |}.

(** [dt + td]. *)
Definition datetime_add (dt : datetime) (td : timedelta) : outcome datetime :=
  let secs := dt_second dt + td_seconds td in
  let days := dt_ordinal dt + td_days td + secs / 86400 in
  if (0 <? days) && (days <=? MAXORDINAL)
  then Return {| dt_ordinal := days; dt_second := secs mod 86400 |}
  else Raise OverflowError.

(** Seconds elapsed since the midnight before day 1. *)
Definition total_seconds (dt : datetime) : Z := dt_ordinal dt * 86400 + dt_second dt.

End Py.

(** ** [src/mii/timestamp.py] *)

Module Timestamp.

(** [True] is a Wii record (74 bytes), [False] a 3DS/WiiU one (92 bytes). *)
Definition get_mii_mode (filename : string) (file_size : Z) : outcome bool :=
  if file_size =? 74 then Return true
  else if file_size =? 92 then Return false
  else Raise (ValueError (filename +:+ "'s format is unknown (size: "
                          +:+ Py.str_int file_size +:+ ")")).

Definition multiplier (is_wii_mii : bool) : Z := if is_wii_mii then 4 else 2.
Definition seek_pos (is_wii_mii : bool) : nat := if is_wii_mii then 0x18%nat else 0xC%nat.

(** [file_handle] is given by the content of the file it was opened on. *)
Definition get_mii_seconds (file_handle : bytes) (is_wii_mii : bool) : outcome Z :=
  let str_id := Py.hex (Py.read_at file_handle (seek_pos is_wii_mii) 4) in
  int_id ← Py.int (Py.slice_from str_id 1) 16;
  Return (int_id * multiplier is_wii_mii).

Definition base_date (is_wii_mii : bool) : Py.datetime :=
  if is_wii_mii then Py.datetime_ymd 2006 1 1 else Py.datetime_ymd 2010 1 1.

Definition get_mii_datetime (seconds : Z) (is_wii_mii : bool) : outcome Py.datetime :=
  shift ← Py.timedelta_of_seconds seconds;
  Py.datetime_add (base_date is_wii_mii) shift.

End Timestamp.
(** ** [src/mii/reader.py] *)

Module Reader.

(** [self.colors]. *)
Definition colors : list string :=
  ["Red"; "Orange"; "Yellow"; "Green"; "DarkGreen"; "Blue"; "LightBlue";
   "Pink"; "Purple"; "Brown"; "White"; "Black"].

Section MiiFileReader.
(** [self.data]: the whole content of the file. *)
Variable data : bytes.

(** The bytes [read_string] hands to the decoder: the field, cut after
    the first pair of zero bytes when there is one. *)
Definition string_data (offset length : nat) : bytes :=
  let string_data := take length (drop offset data) in
  let null_pos := Py.find string_data [x00; x00] in
  if decide (null_pos ≠ -1) then
    let null_pos := if decide (null_pos mod 2 ≠ 0) then null_pos - 1 else null_pos in
    take (Z.to_nat (null_pos + 2)) string_data
  else string_data.

Definition read_string (offset length : nat) : outcome (list N) :=
  s ← Py.decode_utf16be (string_data offset length);
  Return (Py.rstrip 0%N s).

Definition read_mii_name : outcome (list N) := read_string 2 20.
Definition read_creator_name : outcome (list N) := read_string 54 20.

Definition read_mii_metadata : outcome (list Z) :=
  let metadata_bytes := take 2 data in
  let binary_str := foldr (λ b acc, Py.format_08b b +:+ acc) EmptyString metadata_bytes in
  is_girl ← (c ← Py.index binary_str 1; Py.int c 2);
  birth_month ← Py.int (Py.slice binary_str 2 6) 2;
  birth_day ← Py.int (Py.slice binary_str 6 11) 2;
  favorite_color ← Py.int (Py.slice binary_str 11 15) 2;
  is_favorite ← (c ← Py.index binary_str 15; Py.int c 2);
  Return [is_girl; birth_month; birth_day; favorite_color; is_favorite].

Definition read_mii_id : bytes := take 4 (drop 24 data).

Definition get_color_name (color_index : Z) : string :=
  if (0 <=? color_index) && (color_index <? Z.of_nat (length colors))
  then default EmptyString (colors !! Z.to_nat color_index)
  else "Unknown (" +:+ Py.str_int color_index +:+ ")".

(** The dictionary [read_all_metadata] returns, one field per key. *)
Record metadata := {
  mii_name : list N;
  creator_name : list N;
  is_girl : Z;
  gender : string;
  birth_month : Z;
  birth_day : Z;
  birthday : string;
  favorite_color : string;
  favorite_color_index : Z;
  is_favorite : Z;
  mii_id : string
}.

(** Python's truth value of an [int] and of a [str]. *)
Definition truthy (n : Z) : bool := negb (n =? 0).
Definition or_default (s : list N) (d : string) : list N :=
  match s with [] => Py.code_points d | _ => s end.

Definition read_all_metadata : outcome metadata :=
  mii_name ← read_mii_name;
  creator_name ← read_creator_name;
  metadata ← read_mii_metadata;
  let mii_id := read_mii_id in
  m3 ← Py.getitem metadata 3;
  let color_name := get_color_name m3 in
  m0 ← Py.getitem metadata 0;
  let gender := if truthy m0 then "Female" else "Male" in
  m1 ← Py.getitem metadata 1;
  m2 ← Py.getitem metadata 2;
  let birthday :=
    if truthy m1 && truthy m2
    then Py.str_int m1 +:+ "/" +:+ Py.str_int m2 else "Not set" in
  m4 ← Py.getitem metadata 4;
  Return {| mii_name := or_default mii_name "Unnamed";
            creator_name := or_default creator_name "Unknown";
            is_girl := m0;
            gender := gender;
            birth_month := m1;
            birth_day := m2;
            birthday := birthday;
            favorite_color := color_name;
            favorite_color_index := m3;
            is_favorite := m4;
            mii_id := Py.upper (Py.hex mii_id) |}.
End MiiFileReader.

End Reader.

(** ** The file system

    [pathlib.Path] is an interface of the standard library: the code builds
    a path from a string, joins a directory and a file name, and prints a
    path in its messages. *)

Class PathOps (Path : Type) `{Countable Path} := {
  path_of_str : string → Path;        (* [Path(s)] *)
  joinpath : Path → string → Path;    (* [p / name] *)
  path_str : Path → string;           (* [str(p)] *)
  parents : Path → list Path          (* [p.parents] *)
}.

Module FS.

Inductive node := File (content : bytes) | Dir.

(** The three calls the extractor makes on the file system. *)
Inductive op := OpenRead | OpenWrite | Mkdir.

Section FS.
Context `{PathOps Path}.

(** A file system: what is stored under each path; what the operating
    system answers when it turns a call down for a reason of its own
    (access rights first of all); and the journal of the files written so
    far, oldest first, each with the bytes written. *)
Record filesystem := {
  nodes : gmap Path node;
  refuses : op → Path → option exc;
  journal : list (Path * bytes)
}.

(** [p.exists()]. *)
Definition path_exists (p : Path) (fs : filesystem) : bool :=
  bool_decide (is_Some (nodes fs !! p)).

(** [open(p, "rb")] followed by reading: the content of the file. *)
Definition open_read (p : Path) (fs : filesystem) : outcome bytes :=
  match refuses fs OpenRead p with
  | Some e => Raise e
  | None =>
      match nodes fs !! p with
      | Some (File content) => Return content
      | Some Dir => Raise IsADirectoryError
      | None => Raise FileNotFoundError
      end
  end.

(** [with open(p, "wb") as f: f.write(content)]: the file is created or
    replaced.  A call that raises leaves the file system as it was. *)
Definition write_file (p : Path) (content : bytes) (fs : filesystem)
  : outcome filesystem :=
  match refuses fs OpenWrite p with
  | Some e => Raise e
  | None =>
      match nodes fs !! p with
      | Some Dir => Raise IsADirectoryError
      | _ => Return {| nodes := <[p := File content]> (nodes fs);
                       refuses := refuses fs;
                       journal := journal fs ++ [(p, content)] |}
      end
  end.

(** [p.mkdir(parents=True, exist_ok=True)]: [p] and the ancestors that are
    missing become directories; a directory that is there already is not
    an error, a file under that name is. *)
Definition mkdir_one (q : Path) (m : gmap Path node) : gmap Path node :=
  match m !! q with
  | None => <[q := Dir]> m
  | Some _ => m
  end.

Definition mkdir_parents (p : Path) (fs : filesystem) : outcome filesystem :=
  match refuses fs Mkdir p with
  | Some e => Raise e
  | None =>
      match nodes fs !! p with
      | Some (File _) => Raise FileExistsError
      | _ => Return {| nodes := foldr mkdir_one (nodes fs) (p :: parents p);
                       refuses := refuses fs;
                       journal := journal fs |}
      end
  end.
End FS.

Arguments filesystem Path {_ _}.
End FS.

(** ** [src/mii/extractor.py] *)

Module Extractor.
Import FS.

(** A member of the [MiiType] enumeration, by the constants the extractor
    reads from it.  [src/mii/types.py] is not part of the sources at hand, so
    a descriptor is an argument here.  [PADDING] is held as the bytes
    [bytearray(mii_type.PADDING)] evaluates to, [SIZE], [OFFSET] and [LIMIT]
    as natural numbers. *)
Record MiiType := {
  SOURCE : string;
  OFFSET : nat;
  SIZE : nat;
  LIMIT : nat;
  PADDING : bytes;
  PREFIX : string
}.

(** The local variables of [extract_miis_from_type] that live across the
    loop.  [infile] is the part of the source that has not been read yet;
    [mii_data] is the last record read (it is not bound before the first
    read, and holds [[]] until then). *)
Record locals {Path : Type} := {
  infile : bytes;
  mii_data : bytes;
  mii_count : nat;
  is_active : bool;
  extracted_files : list Path
}.
Arguments locals : clear implicits.

Section Extract.
Context `{PathOps Path}.
Variable mii_type : MiiType.
Variable output_dir : Path.

Definition mii_padding : bytes := PADDING mii_type.
Definition empty_mii : bytes := replicate (SIZE mii_type) x00.

(** [f"{mii_type.PREFIX}{mii_count:05d}.mii"] and the path it is written to. *)
Definition mii_name (mii_count : nat) : string :=
  PREFIX mii_type +:+ Py.format_05d mii_count +:+ ".mii".

Definition output_path (mii_count : nat) : Path :=
  joinpath output_dir (mii_name mii_count).

(** The loop condition, line 48. *)
Definition guard (st : locals Path) : bool :=
  is_active st && bool_decide (mii_count st < LIMIT mii_type)%nat.

(** One pass through the loop body, lines 49 to 65. *)
Definition body (st : locals Path) (fs : filesystem Path)
  : outcome (locals Path) * filesystem Path :=
  let data := take (SIZE mii_type) (infile st) in
  let rest := drop (SIZE mii_type) (infile st) in
  if bool_decide (length data < SIZE mii_type)%nat then
    (Return {| infile := rest; mii_data := data; mii_count := mii_count st;
               is_active := false; extracted_files := extracted_files st |}, fs)
  else if decide (data = empty_mii) then
    (Return {| infile := rest; mii_data := data; mii_count := mii_count st;
               is_active := is_active st; extracted_files := extracted_files st |}, fs)
  else
    match write_file (output_path (mii_count st)) (data ++ mii_padding) fs with
    | Raise e => (Raise e, fs)
    | Return fs' =>
        (Return {| infile := rest; mii_data := data;
                   mii_count := S (mii_count st);
                   is_active := is_active st;
                   extracted_files :=
                     extracted_files st ++ [output_path (mii_count st)] |}, fs')
    end.

(** The four ways through the loop body. *)
Inductive body_case (st : locals Path) (fs : filesystem Path)
  : outcome (locals Path) * filesystem Path → Prop :=
| body_short :
    (length (infile st) < SIZE mii_type)%nat →
    body_case st fs
      (Return {| infile := []; mii_data := infile st; mii_count := mii_count st;
                 is_active := false; extracted_files := extracted_files st |}, fs)
| body_skip :
    take (SIZE mii_type) (infile st) = empty_mii →
    body_case st fs
      (Return {| infile := drop (SIZE mii_type) (infile st); mii_data := empty_mii;
                 mii_count := mii_count st; is_active := is_active st;
                 extracted_files := extracted_files st |}, fs)
| body_refused e :
    length (take (SIZE mii_type) (infile st)) = SIZE mii_type →
    take (SIZE mii_type) (infile st) ≠ empty_mii →
    write_file (output_path (mii_count st))
      (take (SIZE mii_type) (infile st) ++ mii_padding) fs = Raise e →
    body_case st fs (Raise e, fs)
| body_emit fs' :
    length (take (SIZE mii_type) (infile st)) = SIZE mii_type →
    take (SIZE mii_type) (infile st) ≠ empty_mii →
    write_file (output_path (mii_count st))
      (take (SIZE mii_type) (infile st) ++ mii_padding) fs = Return fs' →
    body_case st fs
      (Return {| infile := drop (SIZE mii_type) (infile st);
                 mii_data := take (SIZE mii_type) (infile st);
                 mii_count := S (mii_count st); is_active := is_active st;
                 extracted_files := extracted_files st ++ [output_path (mii_count st)] |},
       fs').

(** The [while] loop.  [fuel] bounds the number of passes; [None] means
    that the loop is still running when the fuel is spent. *)
Fixpoint loop (fuel : nat) (st : locals Path) (fs : filesystem Path)
  : option (outcome (locals Path) * filesystem Path) :=
  if guard st then
    match fuel with
    | O => None
    | S fuel' =>
        match body st fs with
        | (Return st', fs') => loop fuel' st' fs'
        | (Raise e, fs') => Some (Raise e, fs')
        end
    end
  else Some (Return st, fs).

(** The [except PermissionError] clause of lines 67 and 68. *)
Definition handler (source_file : Path) (e : exc) : exc :=
  match e with
  | PermissionError =>
      MiiExtractionError ("Permission denied accessing " +:+ path_str source_file)
  | _ => e
  end.

(** [input_file or Path(mii_type.SOURCE)], line 31: a path is always true. *)
Definition source_file (input_file : option Path) : Path :=
  default (path_of_str (SOURCE mii_type)) input_file.

(** The local variables when the loop is entered, lines 36 to 46, on a
    source whose content is [content]. *)
Definition start (content : bytes) : locals Path :=
  {| infile := drop (OFFSET mii_type) content;
     mii_data := [];
     mii_count := 0;
     is_active := true;
     extracted_files := [] |}.

(** The function.  The source is read as it stood when it was opened: the
    model takes it that no output path is the path of the source itself.
    An exception leaves in place what was written before it. *)
Definition extract_miis_from_type (fuel : nat) (input_file : option Path)
    (fs : filesystem Path) : option (outcome (list Path) * filesystem Path) :=
  let source_file := source_file input_file in
  if negb (path_exists source_file fs) then
    Some (Raise (MiiExtractionError (path_str source_file +:+ " not found")), fs)
  else
    match mkdir_parents output_dir fs with
    | Raise e => Some (Raise e, fs)
    | Return fs1 =>
        match open_read source_file fs1 with
        | Raise e => Some (Raise (handler source_file e), fs1)
        | Return content =>
            match loop fuel (start content) fs1 with
            | None => None
            | Some (Raise e, fs2) => Some (Raise (handler source_file e), fs2)
            | Some (Return st', fs2) => Some (Return (extracted_files st'), fs2)
            end
        end
    end.
End Extract.

End Extractor.

(** A plain instance of the path interface, to run the extractor on: a path
    is its text, and joining puts a slash in between. *)
Module StrPath.
#[global] Instance string_path : PathOps string := {|
  path_of_str s := s;
  joinpath d name := d +:+ "/" +:+ name;
  path_str p := p;
  parents p := []
|}.

(** A small run: records of two bytes after one byte of header, one byte of
    padding; the source holds an empty slot, two records and a byte left
    over. *)
Definition demo : Extractor.MiiType :=
  {| Extractor.SOURCE := "db.dat"; Extractor.OFFSET := 1; Extractor.SIZE := 2;
     Extractor.LIMIT := 5; Extractor.PADDING := [xaa]; Extractor.PREFIX := "WII_PL" |}.

Definition demo_content : bytes := [xff; x00; x00; x01; x02; x00; x03; x04].

Definition demo_fs : FS.filesystem string :=
  {| FS.nodes := {[ "db.dat" := FS.File demo_content ]};
     FS.refuses := λ _ _, None;
     FS.journal := [] |}.

Definition demo_files : list string := ["out/WII_PL00000.mii"; "out/WII_PL00001.mii"].

Definition demo_written : list (string * bytes) :=
  [("out/WII_PL00000.mii", [x01; x02; xaa]); ("out/WII_PL00001.mii", [x00; x03; xaa])].

Definition demo_fs_after : FS.filesystem string :=
  {| FS.nodes := <[ "out/WII_PL00001.mii" := FS.File [x00; x03; xaa] ]>
                   (<[ "out/WII_PL00000.mii" := FS.File [x01; x02; xaa] ]>
                      (<[ "out" := FS.Dir ]> {[ "db.dat" := FS.File demo_content ]}));
     FS.refuses := λ _ _, None;
     FS.journal := demo_written |}.

(** The file system of the small run once the output directory is made. *)
Definition demo_fs_dir : FS.filesystem string :=
  {| FS.nodes := <[ "out" := FS.Dir ]> {[ "db.dat" := FS.File demo_content ]};
     FS.refuses := λ _ _, None;
     FS.journal := [] |}.



(** A type whose source is not there. *)
Definition demo_absent : Extractor.MiiType :=
  {| Extractor.SOURCE := "none.dat"; Extractor.OFFSET := 0; Extractor.SIZE := 2;
     Extractor.LIMIT := 3; Extractor.PADDING := []; Extractor.PREFIX := "NONE" |}.

(** The same stream without its empty slot, as the loop finds and leaves it. *)
Definition demo_start : Extractor.locals string :=
  {| Extractor.infile := [x01; x02; x00; x03; x04];
     Extractor.mii_data := [];
     Extractor.mii_count := 0;
     Extractor.is_active := true;
     Extractor.extracted_files := [] |}.

Definition demo_end (rest : bytes) : Extractor.locals string :=
  {| Extractor.infile := rest;
     Extractor.mii_data := [x04];
     Extractor.mii_count := 2;
     Extractor.is_active := false;
     Extractor.extracted_files := demo_files |}.

Definition demo_loop_fs_after : FS.filesystem string :=
  {| FS.nodes := <[ "out/WII_PL00001.mii" := FS.File [x00; x03; xaa] ]>
                   (<[ "out/WII_PL00000.mii" := FS.File [x01; x02; xaa] ]>
                      {[ "db.dat" := FS.File demo_content ]});
     FS.refuses := λ _ _, None;
     FS.journal := demo_written |}.
End StrPath.

(** ** Vocabulary of the statements *)

(** A byte as an integer, and big-endian values of two and four bytes. *)
Definition byte_val (b : byte) : Z := Z.of_N (Byte.to_N b).
Definition be16 (b0 b1 : byte) : Z := byte_val b0 * 256 + byte_val b1.
Definition be32 (b0 b1 b2 b3 : byte) : Z :=
  ((byte_val b0 * 256 + byte_val b1) * 256 + byte_val b2) * 256 + byte_val b3.

(** Bits [first] to [last] of a 16-bit value, bit 0 being the most
    significant one. *)
Definition bits_msb (v : Z) (first last : Z) : Z :=
  Z.land (Z.shiftr v (15 - last)) (Z.ones (last - first + 1)).

(** What the header decoder is to return on the 16-bit value [v]. *)
Definition header_fields (v : Z) : list Z :=
  [bits_msb v 1 1; bits_msb v 2 5; bits_msb v 6 10; bits_msb v 11 14; bits_msb v 15 15].

(** The 256 bytes, to check a property of bytes by running it on each. *)
Definition all_bytes : list byte :=
  omap (λ n, Byte.of_N (N.of_nat n)) (seq 0 256).

#[global] Instance exc_eq_dec : EqDecision exc.
Proof. solve_decision. Defined.

#[global] Instance outcome_eq_dec `{EqDecision A} : EqDecision (outcome A).
Proof. solve_decision. Defined.

Definition header_decoded (b0 b1 : byte) : bool :=
  bool_decide (Reader.read_mii_metadata [b0; b1] = Return (header_fields (be16 b0 b1))).

(** The 16-bit big-endian code units of a byte sequence taken two by two (a
    last byte left on its own is not a unit). *)
Fixpoint units_be (bs : bytes) : list N :=
  match bs with
  | hi :: lo :: r => (Byte.to_N hi * 256 + Byte.to_N lo)%N :: units_be r
  | _ => []
  end.

(** Well-formed UTF-16: every high surrogate is followed by a low one, and
    no low surrogate stands elsewhere. *)
Inductive surrogates_paired : list N → Prop :=
| paired_nil : surrogates_paired []
| paired_plain u r :
    Py.is_high_surrogate u = false → Py.is_low_surrogate u = false →
    surrogates_paired r → surrogates_paired (u :: r)
| paired_pair h l r :
    Py.is_high_surrogate h = true → Py.is_low_surrogate l = true →
    surrogates_paired r → surrogates_paired (h :: l :: r).

(** Both name fields of a record, as [read_string] cuts them, are
    well-formed UTF-16. *)
Definition names_well_formed (data : bytes) : Prop :=
  surrogates_paired (units_be (Reader.string_data data 2 20)) ∧
  surrogates_paired (units_be (Reader.string_data data 54 20)).

(** A 74-byte record whose name field starts with the code unit DC01, a low
    surrogate with no high surrogate before it. *)
Definition garbage_record : bytes :=
  [x00; x00; xdc; x01; x00; x41] ++ replicate 68 x00.

(** A 20-byte name field: the three characters U+3042, U+3000 and U+0041,
    then fourteen zero bytes.  The low byte of the second character and the
    high byte of the third are both zero. *)
Definition straddled_name : bytes :=
  [x30; x42; x30; x00; x00; x41] ++ replicate 14 x00.

(** What the journal gains when the records [recs] are written one after the
    other, the counter being [count] at the first of them. *)
Definition written_for `{PathOps Path} (mii_type : Extractor.MiiType)
    (output_dir : Path) (count : nat) (recs : list bytes) : list (Path * bytes) :=
  imap (λ i r, (Extractor.output_path mii_type output_dir (count + i),
                r ++ Extractor.PADDING mii_type)) recs.

(** [r] is a full record of the stream [s] that is not an empty slot: the
    [j]-th block of [SIZE] bytes, for some [j]. *)
Definition record_of (mii_type : Extractor.MiiType) (s : bytes) (r : bytes) : Prop :=
  ∃ j : nat,
    r = take (Extractor.SIZE mii_type) (drop (j * Extractor.SIZE mii_type) s) ∧
    length r = Extractor.SIZE mii_type ∧
    r ≠ Extractor.empty_mii mii_type.

(** The same local variables on another stream. *)
Definition with_infile {Path : Type} (st : Extractor.locals Path) (s : bytes)
  : Extractor.locals Path :=
  {| Extractor.infile := s;
     Extractor.mii_data := Extractor.mii_data st;
     Extractor.mii_count := Extractor.mii_count st;
     Extractor.is_active := Extractor.is_active st;
     Extractor.extracted_files := Extractor.extracted_files st |}.

(** Two outcomes of the loop that a caller cannot tell apart: the same
    exception, or the same counter, flag, last record and list of paths. *)
Definition same_result {Path : Type} (o1 o2 : outcome (Extractor.locals Path)) : Prop :=
  match o1, o2 with
  | Return st1, Return st2 =>
      Extractor.mii_count st1 = Extractor.mii_count st2 ∧
      Extractor.is_active st1 = Extractor.is_active st2 ∧
      Extractor.mii_data st1 = Extractor.mii_data st2 ∧
      Extractor.extracted_files st1 = Extractor.extracted_files st2
  | Raise e1, Raise e2 => e1 = e2
  | _, _ => False
  end.

(** Reading a number back from its decimal digits, zeros in front allowed. *)
Definition read_decimal (s : string) : option nat :=
  Nat.of_uint <$> NilEmpty.uint_of_string s.

(** A record of 74 bytes, all zero but for the four bytes 90 00 00 64 at
    offset 24. *)
Definition stamped_record : bytes :=
  replicate 24 x00 ++ [x90; x00; x00; x64] ++ replicate 46 x00.

(** The full blocks of [size] bytes of a stream, in order; what is left
    after the last full block is not a record.  [fuel] bounds their number:
    the length of the stream is enough when [size] is not 0. *)
Fixpoint blocks (fuel size : nat) (s : bytes) : list bytes :=
  match fuel with
  | O => []
  | S fuel' =>
      if bool_decide (length s < size)%nat then []
      else take size s :: blocks fuel' size (drop size s)
  end.

(** The records a scan is to write: the full blocks of the source from the
    offset on, without the empty slots, and no more than the limit. *)
Definition scanned_records (mii_type : Extractor.MiiType) (content : bytes) : list bytes :=
  let s := drop (Extractor.OFFSET mii_type) content in
  take (Extractor.LIMIT mii_type)
    (filter (λ r, r ≠ Extractor.empty_mii mii_type)
       (blocks (length s) (Extractor.SIZE mii_type) s)).

(** The file system turns down no write to an output path of the scan. *)
Definition writes_accepted `{PathOps Path} (mii_type : Extractor.MiiType)
    (output_dir : Path) (fs : FS.filesystem Path) : Prop :=
  ∀ k, FS.refuses fs FS.OpenWrite (Extractor.output_path mii_type output_dir k) = None ∧
       FS.nodes fs !! Extractor.output_path mii_type output_dir k ≠ Some FS.Dir.

(** What is stored after the writes [W], done in order. *)
Definition apply_writes `{Countable Path} (W : list (Path * bytes))
    (m : gmap Path FS.node) : gmap Path FS.node :=
  foldl (λ m w, <[w.1 := FS.File w.2]> m) m W.

(** ** [main.py]: what the commands do with the library *)

Module Main.

(** The body of the loop of [times], lines 136 to 141, up to the creation
    time it puts in the table, on a file given by its name and its content:
    the size of the file gives the mode, the mode gives the place of the
    timestamp and its epoch. *)
Definition creation_time (name : string) (content : bytes) : outcome Py.datetime :=
  let file_size := Z.of_nat (length content) in
  is_wii_mii ← Timestamp.get_mii_mode name file_size;
  seconds ← Timestamp.get_mii_seconds content is_wii_mii;
  Timestamp.get_mii_datetime seconds is_wii_mii.

(** [extract] without [--type], lines 85 to 105: every type in turn, into
    the same directory; a [MiiExtractionError] is passed over, any other
    exception ends the command.  The members of [MiiType] are the list
    [types]; the progress display is left out. *)
Fixpoint extract_all `{PathOps Path} (fuel : nat) (types : list Extractor.MiiType)
    (output_dir : Path) (total_extracted : nat) (fs : FS.filesystem Path)
  : option (outcome nat * FS.filesystem Path) :=
  match types with
  | [] => Some (Return total_extracted, fs)
  | mii_enum :: rest =>
      match Extractor.extract_miis_from_type mii_enum output_dir fuel None fs with
      | None => None
      | Some (Return extracted_files, fs') =>
          extract_all fuel rest output_dir (total_extracted + length extracted_files) fs'
      | Some (Raise (MiiExtractionError _), fs') =>
          extract_all fuel rest output_dir total_extracted fs'
      | Some (Raise e, fs') => Some (Raise e, fs')
      end
  end.

End Main.

(** Evaluate the calls of [f] on a closed argument. *)
Ltac compute_call f :=
  repeat match goal with
    | |- context [f ?c] =>
        progress (let v := eval vm_compute in (f c) in change (f c) with v)
    end.

(** * Properties *)

(** ** Timestamp decoder *)

(** The equations of string concatenation, which [simpl] does not unfold. *)
Lemma append_String c s1 s2 : String c s1 +:+ s2 = String c (s1 +:+ s2).
Proof. reflexivity. Qed.

Lemma append_empty s : "" +:+ s = s.
Proof. reflexivity. Qed.

Lemma length_append (s1 s2 : string) :
  String.length (s1 +:+ s2) = (String.length s1 + String.length s2)%nat.
Proof.
  induction s1 as [|c s1 IH]; [done|].
  rewrite append_String. cbn [String.length]. by rewrite IH.
Qed.

Lemma append_inj_l (t s1 s2 : string) : s1 +:+ t = s2 +:+ t → s1 = s2.
Proof.
  revert s2. induction s1 as [|c s1 IH]; intros [|c2 s2] Heq;
    rewrite ?append_String, ?append_empty in Heq.
  - done.
  - apply (f_equal String.length) in Heq.
    cbn [String.length] in Heq. rewrite length_append in Heq. lia.
  - apply (f_equal String.length) in Heq.
    cbn [String.length] in Heq. rewrite length_append in Heq. lia.
  - injection Heq as -> Heq. f_equal. by apply IH.
Qed.

Section TimestampProperties.
Import Timestamp.

Lemma byte_val_range b : 0 <= byte_val b < 256.
Proof.
  unfold byte_val. pose proof (Byte.to_N_bounded b). lia.
Qed.

(** Two hexadecimal digits are read back as the byte they print. *)
Lemma int_digits_hex_of_byte b acc s :
  Py.int_digits 16 acc (Py.hex_of_byte b +:+ s)
  = Py.int_digits 16 (acc * 256 + byte_val b) s.
Proof.
  destruct b; compute_call Py.hex_of_byte;
    rewrite !append_String, append_empty; cbn [Py.int_digits];
    compute_call Py.digit_value; cbn; f_equal; lia.
Qed.

(** The low digit alone is the byte modulo 16. *)
Lemma int_digits_low_digit b s :
  Py.int_digits 16 0 (String (Py.hex_digit (Byte.to_N b mod 16)) s)
  = Py.int_digits 16 (byte_val b mod 16) s.
Proof.
  destruct b; reflexivity.
Qed.

Lemma be32_mod_2_28 b0 b1 b2 b3 :
  be32 b0 b1 b2 b3 mod 2 ^ 28
  = ((byte_val b0 mod 16 * 256 + byte_val b1) * 256 + byte_val b2) * 256 + byte_val b3.
Proof.
  pose proof (byte_val_range b0). pose proof (byte_val_range b1).
  pose proof (byte_val_range b2). pose proof (byte_val_range b3).
  unfold be32.
  rewrite (Z.div_mod (byte_val b0) 16) at 1 by lia.
  pose proof (Z.mod_pos_bound (byte_val b0) 16 ltac:(lia)).
  set (h := byte_val b0 / 16). set (l := byte_val b0 mod 16) in *.
  symmetry. apply Z.mod_unique with (q := h); [left; lia | lia].
Qed.

Lemma get_mii_seconds_on_field file is_wii_mii b0 b1 b2 b3 rest :
  drop (seek_pos is_wii_mii) file = b0 :: b1 :: b2 :: b3 :: rest →
  get_mii_seconds file is_wii_mii
  = Return (be32 b0 b1 b2 b3 mod 2 ^ 28 * multiplier is_wii_mii).
Proof.
  intros Hfield. unfold get_mii_seconds, Py.read_at. rewrite Hfield.
  change (take 4 (b0 :: b1 :: b2 :: b3 :: rest)) with [b0; b1; b2; b3].
  change (Py.slice_from (Py.hex [b0; b1; b2; b3]) 1)
    with (String (Py.hex_digit (Byte.to_N b0 mod 16))
            (Py.hex_of_byte b1 +:+ Py.hex_of_byte b2 +:+ Py.hex_of_byte b3 +:+ "")).
  unfold Py.int. rewrite int_digits_low_digit, !int_digits_hex_of_byte.
  cbn [Py.int_digits mbind outcome_bind]. by rewrite be32_mod_2_28.
Qed.

(** Adding a count of seconds below [2 ^ 30] to an epoch never leaves the
    range of [datetime]. *)
Lemma get_mii_datetime_in_range seconds is_wii_mii :
  0 <= seconds < 2 ^ 30 →
  get_mii_datetime seconds is_wii_mii
  = Return {| Py.dt_ordinal := Py.dt_ordinal (base_date is_wii_mii) + seconds / 86400;
              Py.dt_second := seconds mod 86400 |}.
Proof.
  intros Hs. unfold get_mii_datetime, Py.timedelta_of_seconds.
  assert (0 <= seconds / 86400 <= 12428) as Hd.
  { split; [apply Z.div_pos; lia |].
    apply Z.lt_succ_r, Z.div_lt_upper_bound; lia. }
  pose proof (Z.mod_pos_bound seconds 86400 ltac:(lia)) as Hm.
  destruct (Z.gtb_spec (Z.abs (seconds / 86400)) 999999999) as [Habs|_]; [lia|].
  cbn [mbind outcome_bind]. unfold Py.datetime_add.
  cbn [Py.td_days Py.td_seconds].
  assert (Py.dt_second (base_date is_wii_mii) = 0) as -> by (by destruct is_wii_mii).
  assert (680000 <= Py.dt_ordinal (base_date is_wii_mii) <= 740000) as Hb
    by (destruct is_wii_mii; vm_compute; split; discriminate).
  rewrite Z.add_0_l, (Z.div_small (seconds mod 86400)), Z.add_0_r by lia.
  rewrite (Z.mod_small (seconds mod 86400)) by lia.
  unfold Py.MAXORDINAL.
  destruct (Z.ltb_spec 0 (Py.dt_ordinal (base_date is_wii_mii) + seconds / 86400)); [|lia].
  destruct (Z.leb_spec (Py.dt_ordinal (base_date is_wii_mii) + seconds / 86400) 3652059);
    [reflexivity | lia].
Qed.

(** C7: [get_mii_mode] answers Wii ([True]) on 74 bytes, 3DS/WiiU ([False])
    on 92 bytes, and raises a [ValueError] whose message carries the size
    on every other size, 50 for one; it raises exactly when the size is
    neither 74 nor 92. *)
Theorem get_mii_mode_by_size (filename : string) (file_size : Z) :
  get_mii_mode filename 74 = Return true ∧
  get_mii_mode filename 92 = Return false ∧
  get_mii_mode filename 50
    = Raise (ValueError (filename +:+ "'s format is unknown (size: 50)")) ∧
  match get_mii_mode filename file_size with
  | Return is_wii_mii =>
      (file_size = 74 ∧ is_wii_mii = true) ∨ (file_size = 92 ∧ is_wii_mii = false)
  | Raise e =>
      file_size ≠ 74 ∧ file_size ≠ 92 ∧
      e = ValueError (filename +:+ "'s format is unknown (size: "
                      +:+ Py.str_int file_size +:+ ")")
  end.
Proof.
  repeat split; try reflexivity.
  unfold get_mii_mode.
  destruct (Z.eqb_spec file_size 74) as [->|H74]; [by left|].
  destruct (Z.eqb_spec file_size 92) as [->|H92]; [by right|].
  done.
Qed.

(** C8: on the four bytes at offset 0x18 (Wii) or 0xC (3DS/WiiU), the
    seconds are the 32-bit big-endian value without its top four bits,
    times 4 (Wii) or 2 (3DS/WiiU), and the date is the epoch of the mode,
    2006-01-01 or 2010-01-01 at midnight, plus that many seconds. *)
Theorem timestamp_of_field (file : bytes) (is_wii_mii : bool)
    (b0 b1 b2 b3 : byte) (rest : bytes) :
  drop (if is_wii_mii then 0x18 else 0xC)%nat file = b0 :: b1 :: b2 :: b3 :: rest →
  let low28 := be32 b0 b1 b2 b3 mod 2 ^ 28 in
  let seconds := low28 * (if is_wii_mii then 4 else 2) in
  let epoch := Py.datetime_ymd (if is_wii_mii then 2006 else 2010) 1 1 in
  low28 = Z.land (be32 b0 b1 b2 b3) 0xFFFFFFF ∧
  get_mii_seconds file is_wii_mii = Return seconds ∧
  get_mii_datetime seconds is_wii_mii
    = Return {| Py.dt_ordinal := Py.dt_ordinal epoch + seconds / 86400;
                Py.dt_second := seconds mod 86400 |} ∧
  ∃ dt, get_mii_datetime seconds is_wii_mii = Return dt ∧
        Py.total_seconds dt = Py.total_seconds epoch + seconds.
Proof.
  intros Hfield low28 seconds epoch.
  assert (0 <= low28 < 2 ^ 28) as Hlow by (apply Z.mod_pos_bound; lia).
  assert (0 <= seconds < 2 ^ 30) as Hsec by (subst seconds; destruct is_wii_mii; lia).
  assert (epoch = base_date is_wii_mii) as Hepoch by (by destruct is_wii_mii).
  assert (get_mii_datetime seconds is_wii_mii
          = Return {| Py.dt_ordinal := Py.dt_ordinal epoch + seconds / 86400;
                      Py.dt_second := seconds mod 86400 |}) as Hdt
    by (rewrite Hepoch; by apply get_mii_datetime_in_range).
  split; [|split; [|split]].
  - subst low28. change 0xFFFFFFF with (Z.ones 28). by rewrite Z.land_ones.
  - rewrite (get_mii_seconds_on_field file is_wii_mii b0 b1 b2 b3 rest).
    + by destruct is_wii_mii.
    + by destruct is_wii_mii.
  - exact Hdt.
  - eexists; split; [exact Hdt|].
    unfold Py.total_seconds; cbn [Py.dt_ordinal Py.dt_second].
    assert (Py.dt_second epoch = 0) as -> by (by destruct is_wii_mii).
    pose proof (Z.div_mod seconds 86400 ltac:(lia)). lia.
Qed.

(** The example of the specification: the last seven hexadecimal digits
    are [0000064], that is 100, in a Wii record. *)
Lemma timestamp_of_field_witness :
  get_mii_seconds (replicate 24 x00 ++ [x90; x00; x00; x64]) true = Return 400 ∧
  get_mii_datetime 400 true
    = Return {| Py.dt_ordinal := 732312; Py.dt_second := 400 |}.
Proof.
  pose proof (timestamp_of_field (replicate 24 x00 ++ [x90; x00; x00; x64]) true
                x90 x00 x00 x64 [] eq_refl) as (_ & Hs & Hd & _).
  split; [exact Hs | exact Hd].
Defined.
End TimestampProperties.

(** ** Field decoder *)

Section ReaderProperties.
Import Reader.

Lemma all_bytes_complete (b : byte) : b ∈ all_bytes.
Proof.
  destruct b; apply (bool_decide_unpack _); vm_compute; exact I.
Qed.

Lemma header_decoded_all :
  forallb (λ b0, forallb (header_decoded b0) all_bytes) all_bytes = true.
Proof. vm_compute. reflexivity. Qed.

Lemma read_mii_metadata_two_bytes (b0 b1 : byte) (rest : bytes) :
  read_mii_metadata (b0 :: b1 :: rest) = Return (header_fields (be16 b0 b1)).
Proof.
  change (read_mii_metadata (b0 :: b1 :: rest)) with (read_mii_metadata [b0; b1]).
  pose proof header_decoded_all as Hall.
  rewrite forallb_forall in Hall.
  specialize (Hall b0 (proj1 (list_elem_of_In _ _) (all_bytes_complete b0))).
  rewrite forallb_forall in Hall.
  specialize (Hall b1 (proj1 (list_elem_of_In _ _) (all_bytes_complete b1))).
  by apply bool_decide_eq_true in Hall.
Qed.

(** C4: the first two bytes, read as a 16-bit big-endian value whose bit 0
    is the most significant one, give [is_girl] = bit 1, [birth_month] =
    bits 2 to 5, [birth_day] = bits 6 to 10, [favorite_color] = bits 11 to
    14 and [is_favorite] = bit 15; header 0000 gives 0, 0, 0, 0, 0 and
    header FFFF gives 1, 15, 31, 15, 1. *)
Theorem header_bit_layout (b0 b1 : byte) (rest : bytes) :
  let v := be16 b0 b1 in
  read_mii_metadata (b0 :: b1 :: rest)
    = Return [Z.b2z (Z.testbit v 14); (v / 2 ^ 10) mod 2 ^ 4; (v / 2 ^ 5) mod 2 ^ 5;
              (v / 2 ^ 1) mod 2 ^ 4; Z.b2z (Z.testbit v 0)] ∧
  read_mii_metadata (b0 :: b1 :: rest)
    = Return [bits_msb v 1 1; bits_msb v 2 5; bits_msb v 6 10; bits_msb v 11 14;
              bits_msb v 15 15] ∧
  read_mii_metadata (x00 :: x00 :: rest) = Return [0; 0; 0; 0; 0] ∧
  read_mii_metadata (xff :: xff :: rest) = Return [1; 15; 31; 15; 1].
Proof.
  intros v. rewrite !read_mii_metadata_two_bytes. fold v.
  split; [|split; [|split]]; try reflexivity.
  unfold header_fields, bits_msb. repeat f_equal.
  - change (Z.ones (1 - 1 + 1)) with (Z.ones 1).
    rewrite Z.land_ones by lia. change (15 - 1) with 14.
    rewrite Z.testbit_spec' by lia. by rewrite Z.shiftr_div_pow2 by lia.
  - change (Z.ones (5 - 2 + 1)) with (Z.ones 4).
    rewrite Z.land_ones, Z.shiftr_div_pow2 by lia. reflexivity.
  - change (Z.ones (10 - 6 + 1)) with (Z.ones 5).
    rewrite Z.land_ones, Z.shiftr_div_pow2 by lia. reflexivity.
  - change (Z.ones (14 - 11 + 1)) with (Z.ones 4).
    rewrite Z.land_ones, Z.shiftr_div_pow2 by lia. reflexivity.
  - change (Z.ones (15 - 15 + 1)) with (Z.ones 1).
    rewrite Z.land_ones by lia. change (15 - 15) with 0.
    rewrite Z.testbit_spec' by lia. by rewrite Z.shiftr_div_pow2 by lia.
Qed.

(** *** Strings *)

Lemma find_from_range (sub s : bytes) (i : Z) :
  Py.find_from sub s i = -1 ∨
  (i <= Py.find_from sub s i ∧
   Py.find_from sub s i - i + Z.of_nat (length sub) <= Z.of_nat (length s)).
Proof.
  revert i. induction s as [|b s IH]; intros i; cbn [Py.find_from].
  - destruct (decide (sub = [])) as [->|]; [right; cbn; lia | by left].
  - destruct (decide (take (length sub) (b :: s) = sub)) as [Heq|_].
    + right. apply (f_equal length) in Heq. rewrite length_take in Heq. lia.
    + destruct (IH (i + 1)) as [->|[? ?]]; [by left | right].
      cbn [length]. lia.
Qed.

(** The bytes handed to the decoder are an even number when the field is. *)
Lemma string_data_even (data : bytes) (offset : nat) (k : nat) :
  length (take (2 * k) (drop offset data)) = (2 * k)%nat →
  ∃ j, length (string_data data offset (2 * k)) = (2 * j)%nat.
Proof.
  intros Hlen. unfold string_data.
  set (field := take (2 * k) (drop offset data)) in *.
  destruct (find_from_range [x00; x00] field 0) as [Hnone|[Hlo Hhi]];
    fold (Py.find field [x00; x00]) in *.
  - rewrite Hnone. destruct (decide (-1 ≠ -1)); [done | by exists k].
  - set (p := Py.find field [x00; x00]) in *. cbn [length] in Hhi.
    destruct (decide (p ≠ -1)); [|by exists k].
    pose proof (Z.mod_pos_bound p 2 ltac:(lia)) as Hm.
    pose proof (Z.div_mod p 2 ltac:(lia)) as Hdm.
    rewrite length_take.
    destruct (decide (p mod 2 ≠ 0)).
    + exists (Z.to_nat (p / 2) + 1)%nat. lia.
    + exists (Z.to_nat (p / 2) + 1)%nat. lia.
Qed.

Lemma code_units_be_even (k : nat) (bs : bytes) :
  length bs = (2 * k)%nat → Py.code_units_be bs = Some (units_be bs).
Proof.
  revert bs. induction k as [|k IH]; intros bs Hlen.
  - by destruct bs.
  - destruct bs as [|hi [|lo r]]; cbn [length] in Hlen; try lia.
    cbn [Py.code_units_be units_be]. rewrite (IH r) by lia. reflexivity.
Qed.

Lemma decode_units_paired (us : list N) :
  is_Some (Py.decode_units us) ↔ surrogates_paired us.
Proof.
  split.
  - remember (length us) as n eqn:Hn. revert us Hn.
    induction n as [n IH] using lt_wf_ind. intros us -> Hsome.
    destruct us as [|u r]; [constructor|].
    cbn [Py.decode_units] in Hsome.
    destruct (Py.is_high_surrogate u) eqn:Hh.
    + destruct r as [|l r2]; [by destruct Hsome|].
      destruct (Py.is_low_surrogate l) eqn:Hl; [|by destruct Hsome].
      apply paired_pair; [done..|].
      apply (IH (length r2)); [cbn; lia | done |].
      by apply fmap_is_Some in Hsome.
    + destruct (Py.is_low_surrogate u) eqn:Hl; [by destruct Hsome|].
      apply paired_plain; [done..|].
      apply (IH (length r)); [cbn; lia | done |].
      by apply fmap_is_Some in Hsome.
  - induction 1 as [|u r Hh Hl _ IH|h l r Hh Hl _ IH]; cbn [Py.decode_units].
    + by eexists.
    + rewrite Hh, Hl. by apply fmap_is_Some.
    + rewrite Hh, Hl. by apply fmap_is_Some.
Qed.

(** Strict decoding of an even number of bytes fails exactly on an unpaired
    surrogate. *)
Lemma decode_utf16be_outcome (k : nat) (bs : bytes) :
  length bs = (2 * k)%nat →
  match Py.decode_utf16be bs with
  | Return _ => surrogates_paired (units_be bs)
  | Raise e => e = UnicodeDecodeError ∧ ¬ surrogates_paired (units_be bs)
  end.
Proof.
  intros Hlen. unfold Py.decode_utf16be.
  rewrite (code_units_be_even k bs Hlen). cbn [mbind option_bind].
  destruct (Py.decode_units (units_be bs)) as [s|] eqn:Hd.
  - apply decode_units_paired. by rewrite Hd.
  - split; [done|]. intros Hp%decode_units_paired. rewrite Hd in Hp. by destruct Hp.
Qed.

Lemma read_string_outcome (data : bytes) (offset k : nat) :
  length (take (2 * k) (drop offset data)) = (2 * k)%nat →
  match read_string data offset (2 * k) with
  | Return _ => surrogates_paired (units_be (string_data data offset (2 * k)))
  | Raise e => e = UnicodeDecodeError ∧
               ¬ surrogates_paired (units_be (string_data data offset (2 * k)))
  end.
Proof.
  intros Hlen. destruct (string_data_even data offset k Hlen) as [j Hj].
  pose proof (decode_utf16be_outcome j _ Hj) as Hdec.
  unfold read_string. by destruct (Py.decode_utf16be _).
Qed.

(** Where [read_string] does return the three characters: no pair of zero
    bytes lies inside the six bytes of the characters or across two of them,
    and no character is a surrogate.  The first pair of zeros is then at
    offset 5, when the low byte of the third character is zero, or at
    offset 6. *)
Lemma find_null_pair_skip (a b : byte) (s : bytes) (i : Z) :
  ¬ (a = x00 ∧ b = x00) →
  Py.find_from [x00; x00] (a :: b :: s) i = Py.find_from [x00; x00] (b :: s) (i + 1).
Proof.
  intros Hne. cbn [Py.find_from length take].
  destruct (decide (a :: b :: take 0 s = [x00; x00])) as [Heq|_]; [|done].
  exfalso. apply Hne. by simplify_eq.
Qed.

Lemma find_null_pair_here (s : bytes) (i : Z) :
  Py.find_from [x00; x00] (x00 :: x00 :: s) i = i.
Proof.
  cbn [Py.find_from length take]. rewrite take_0.
  by destruct (decide ([x00; x00] = [x00; x00])).
Qed.

Lemma unit_zero (h l : byte) :
  (Byte.to_N h * 256 + Byte.to_N l)%N = 0%N → h = x00 ∧ l = x00.
Proof.
  intros Hz.
  assert (Byte.to_N h = 0%N ∧ Byte.to_N l = 0%N) as [Hh Hl] by lia.
  pose proof (Byte.of_to_N h) as Eh. pose proof (Byte.of_to_N l) as El.
  rewrite Hh in Eh. rewrite Hl in El. cbn in Eh, El. by simplify_eq.
Qed.

Lemma string_data_found (data : bytes) (offset length : nat) (p : Z) (n : nat) :
  Py.find (take length (drop offset data)) [x00; x00] = p →
  p ≠ -1 →
  Z.to_nat ((if decide (p mod 2 ≠ 0) then p - 1 else p) + 2) = n →
  string_data data offset length = take n (take length (drop offset data)).
Proof.
  intros Hfind Hp Hn. unfold string_data. rewrite Hfind, Hn.
  by destruct (decide (p ≠ -1)).
Qed.

Lemma read_string_three_characters (h1 l1 h2 l2 h3 l3 : byte) :
  let u1 := (Byte.to_N h1 * 256 + Byte.to_N l1)%N in
  let u2 := (Byte.to_N h2 * 256 + Byte.to_N l2)%N in
  let u3 := (Byte.to_N h3 * 256 + Byte.to_N l3)%N in
  ¬ (h1 = x00 ∧ l1 = x00) → ¬ (l1 = x00 ∧ h2 = x00) → ¬ (h2 = x00 ∧ l2 = x00) →
  ¬ (l2 = x00 ∧ h3 = x00) → ¬ (h3 = x00 ∧ l3 = x00) →
  Py.is_high_surrogate u1 || Py.is_low_surrogate u1 = false →
  Py.is_high_surrogate u2 || Py.is_low_surrogate u2 = false →
  Py.is_high_surrogate u3 || Py.is_low_surrogate u3 = false →
  read_string ([h1; l1; h2; l2; h3; l3] ++ replicate 14 x00) 0 20 = Return [u1; u2; u3].
Proof.
  intros u1 u2 u3 H1 H12 H2 H23 H3 [Hh1 Hl1]%orb_false_iff [Hh2 Hl2]%orb_false_iff
    [Hh3 Hl3]%orb_false_iff.
  assert (u3 ≠ 0%N) as Hu3 by (by intros ?%unit_zero).
  set (data := [h1; l1; h2; l2; h3; l3] ++ replicate 14 x00).
  assert (take 20 (drop 0 data)
          = h1 :: l1 :: h2 :: l2 :: h3 :: l3 :: x00 :: x00 :: replicate 12 x00)
    as Hfield by reflexivity.
  unfold read_string.
  destruct (decide (l3 = x00)) as [Hl3z|Hl3z].
  - rewrite (string_data_found data 0 20 5 6); [| |done..].
    2:{ rewrite Hfield, Hl3z. unfold Py.find.
        rewrite !find_null_pair_skip by (by subst). apply find_null_pair_here. }
    rewrite Hfield. cbn [take]. rewrite ?take_0. unfold Py.decode_utf16be.
    cbn [Py.code_units_be fmap option_fmap option_map mbind option_bind].
    fold u1 u2 u3. cbn [Py.decode_units].
    rewrite Hh1, Hl1, Hh2, Hl2, Hh3, Hl3.
    cbn [fmap option_fmap option_map mbind outcome_bind Py.rstrip].
    by destruct (decide (u3 = 0%N)).
  - rewrite (string_data_found data 0 20 6 8); [| |done..].
    2:{ rewrite Hfield. unfold Py.find.
        rewrite !find_null_pair_skip by first [done | by intros [? _]].
        apply find_null_pair_here. }
    rewrite Hfield. cbn [take]. rewrite ?take_0. unfold Py.decode_utf16be.
    cbn [Py.code_units_be fmap option_fmap option_map mbind option_bind].
    fold u1 u2 u3. change (Byte.to_N x00 * 256 + Byte.to_N x00)%N with 0%N.
    cbn [Py.decode_units].
    rewrite Hh1, Hl1, Hh2, Hl2, Hh3, Hl3.
    change (Py.is_high_surrogate 0) with false. change (Py.is_low_surrogate 0) with false.
    cbn [fmap option_fmap option_map mbind outcome_bind Py.rstrip].
    destruct (decide (0%N = 0%N)); [|done]. by destruct (decide (u3 = 0%N)).
Qed.

(** C5, at the input where the code departs from it.  The field holds three
    characters and then zeros only; the first pair of zero bytes is at the
    odd offset 3, across the second and the third character; [read_string]
    cuts the field after the second character and returns two characters
    instead of three. *)
Theorem read_string_drops_third_character :
  length straddled_name = 20%nat ∧
  Py.decode_utf16be (take 6 straddled_name) = Return [0x3042; 0x3000; 0x41]%N ∧
  drop 6 straddled_name = replicate 14 x00 ∧
  Py.find straddled_name [x00; x00] = 3 ∧
  read_string straddled_name 0 20 = Return [0x3042; 0x3000]%N ∧
  read_string straddled_name 0 20 ≠ Return [0x3042; 0x3000; 0x41]%N.
Proof.
  repeat split; try reflexivity.
  vm_compute. discriminate.
Qed.

(** C6 as stated fails: on a record of 74 bytes whose name field holds a low
    surrogate on its own, [read_all_metadata] raises [UnicodeDecodeError]. *)
Lemma read_all_metadata_raises_on_garbage :
  length garbage_record = 74%nat ∧
  read_all_metadata garbage_record = Raise UnicodeDecodeError ∧
  ¬ returns (read_all_metadata garbage_record).
Proof.
  split; [reflexivity|]. split; [reflexivity|].
  intros [m Hm]. vm_compute in Hm. discriminate.
Qed.

(** C6, amended: on a record of at least 74 bytes, [read_all_metadata]
    returns a value when both name fields, as [read_string] cuts them, are
    well-formed UTF-16, and raises [UnicodeDecodeError] when one of them holds
    an unpaired surrogate; it raises nothing else. *)
Theorem read_all_metadata_outcome (data : bytes) :
  (74 ≤ length data)%nat →
  match read_all_metadata data with
  | Return _ => names_well_formed data
  | Raise e => e = UnicodeDecodeError ∧ ¬ names_well_formed data
  end.
Proof.
  intros Hlen. unfold read_all_metadata, read_mii_name, read_creator_name.
  assert (∀ off, (off + 20 ≤ 74)%nat →
            length (take (2 * 10) (drop off data)) = (2 * 10)%nat) as Hfield.
  { intros off Hoff. rewrite length_take, length_drop. lia. }
  pose proof (read_string_outcome data 2 10 (Hfield 2%nat ltac:(lia))) as Hname.
  pose proof (read_string_outcome data 54 10 (Hfield 54%nat ltac:(lia))) as Hcreator.
  change (2 * 10)%nat with 20%nat in Hname, Hcreator.
  unfold names_well_formed.
  destruct (read_string data 2 20) as [name|e1]; cbn [mbind outcome_bind];
    [|destruct Hname as [-> Hname]; split; [done | tauto]].
  destruct (read_string data 54 20) as [creator|e2]; cbn [mbind outcome_bind];
    [|destruct Hcreator as [-> Hcreator]; split; [done | tauto]].
  destruct data as [|b0 [|b1 rest]]; cbn [length] in Hlen; try lia.
  rewrite read_mii_metadata_two_bytes. cbn. done.
Qed.

Lemma read_all_metadata_outcome_witness :
  (74 ≤ length (replicate 74 x41))%nat ∧
  match read_all_metadata (replicate 74 x41) with
  | Return _ => names_well_formed (replicate 74 x41)
  | Raise e => e = UnicodeDecodeError ∧ ¬ names_well_formed (replicate 74 x41)
  end.
Proof.
  assert (74 ≤ length (replicate 74 x41))%nat as Hlen by (vm_compute; lia).
  split; [exact Hlen | exact (read_all_metadata_outcome (replicate 74 x41) Hlen)].
Defined.
(** *** Further properties of [read_string] *)

(** [rstrip] takes characters [c] off the end and nothing else. *)
Lemma rstrip_spec (c : N) (s : list N) :
  ∃ k, s = Py.rstrip c s ++ replicate k c ∧ last (Py.rstrip c s) ≠ Some c.
Proof.
  induction s as [|x s (k & Hs & Hlast)]; [by exists 0%nat|].
  cbn [Py.rstrip]. destruct (Py.rstrip c s) as [|y r] eqn:Hr.
  - destruct (decide (x = c)) as [->|Hne].
    + exists (S k). split; [by rewrite Hs at 1 | done].
    + exists k. split; [by rewrite Hs at 1 | cbn; congruence].
  - exists k. split; [by rewrite Hs at 1 | done].
Qed.

Lemma rstrip_length (c : N) (s : list N) : (length (Py.rstrip c s) ≤ length s)%nat.
Proof.
  destruct (rstrip_spec c s) as (k & Hs & _).
  rewrite Hs at 2. rewrite length_app. lia.
Qed.

Lemma code_units_be_length (bs : bytes) (us : list N) :
  Py.code_units_be bs = Some us → length bs = (2 * length us)%nat.
Proof.
  remember (length bs) as n eqn:Hn. revert bs us Hn.
  induction n as [n IH] using lt_wf_ind. intros bs us -> Hus.
  destruct bs as [|hi [|lo r]]; cbn [Py.code_units_be] in Hus; simplify_eq; [done|].
  destruct (Py.code_units_be r) as [us'|] eqn:Hr; cbn in Hus; simplify_eq.
  cbn [length]. rewrite (IH (length r) ltac:(cbn; lia) r us' eq_refl Hr). lia.
Qed.

Lemma decode_units_length (us s : list N) :
  Py.decode_units us = Some s → (length s ≤ length us)%nat.
Proof.
  remember (length us) as n eqn:Hn. revert us s Hn.
  induction n as [n IH] using lt_wf_ind. intros us s -> Hs.
  destruct us as [|u r]; cbn [Py.decode_units] in Hs; simplify_eq; [done|].
  destruct (Py.is_high_surrogate u).
  - destruct r as [|l r2]; [done|]. destruct (Py.is_low_surrogate l); [|done].
    destruct (Py.decode_units r2) as [s2|] eqn:Hr2; cbn in Hs; simplify_eq.
    pose proof (IH (length r2) ltac:(cbn; lia) r2 s2 eq_refl Hr2). cbn [length]. lia.
  - destruct (Py.is_low_surrogate u); [done|].
    destruct (Py.decode_units r) as [s2|] eqn:Hr2; cbn in Hs; simplify_eq.
    pose proof (IH (length r) ltac:(cbn; lia) r s2 eq_refl Hr2). cbn [length]. lia.
Qed.

Lemma string_data_length (data : bytes) (offset length' : nat) :
  (length (string_data data offset length') ≤ length')%nat.
Proof.
  unfold string_data. destruct (decide _); rewrite ?length_take; lia.
Qed.

(** X1: whatever the bytes, the offset and the length, a string returned by
    [read_string] does not end with a NUL character and has at most one
    character for two bytes of the field. *)
Theorem read_string_no_trailing_nul (data : bytes) (offset length' : nat) (s : list N) :
  read_string data offset length' = Return s →
  last s ≠ Some 0%N ∧ (2 * length s ≤ length')%nat.
Proof.
  unfold read_string, Py.decode_utf16be. intros Hs.
  destruct (Py.code_units_be (string_data data offset length')) as [us|] eqn:Hus;
    cbn [mbind option_bind] in Hs; [|done].
  destruct (Py.decode_units us) as [s'|] eqn:Hdec; cbn in Hs; [|done]. simplify_eq.
  destruct (rstrip_spec 0%N s') as (k & _ & Hlast). split; [done|].
  pose proof (rstrip_length 0%N s'). pose proof (decode_units_length _ _ Hdec).
  pose proof (code_units_be_length _ _ Hus). pose proof (string_data_length data offset length').
  lia.
Qed.

Lemma read_string_no_trailing_nul_witness :
  read_string straddled_name 0 20 = Return [0x3042; 0x3000]%N ∧
  last [0x3042; 0x3000]%N ≠ Some 0%N ∧ (2 * length [0x3042; 0x3000]%N ≤ 20)%nat.
Proof.
  assert (read_string straddled_name 0 20 = Return [0x3042; 0x3000]%N) as Hrun
    by (vm_compute; reflexivity).
  split; [exact Hrun|].
  exact (read_string_no_trailing_nul straddled_name 0 20 _ Hrun).
Defined.
(** *** A name followed by zeros is read back *)

Lemma find_null_pair_nil (i : Z) : Py.find_from [x00; x00] [] i = -1.
Proof. cbn. by destruct (decide ([x00; x00] = [])). Qed.

Lemma find_null_pair_single (a : byte) (i : Z) : Py.find_from [x00; x00] [a] i = -1.
Proof.
  cbn [Py.find_from length]. change (take 2 [a]) with [a].
  destruct (decide ([a] = [x00; x00])); [done | apply (find_null_pair_nil (i + 1))].
Qed.

Lemma find_none_head (a b : byte) (s : bytes) (i : Z) :
  0 <= i → Py.find_from [x00; x00] (a :: b :: s) i = -1 →
  ¬ (a = x00 ∧ b = x00) ∧ Py.find_from [x00; x00] (b :: s) (i + 1) = -1.
Proof.
  intros Hi Hnone.
  destruct (decide (a = x00 ∧ b = x00)) as [[-> ->]|Hne].
  - rewrite find_null_pair_here in Hnone. lia.
  - by rewrite find_null_pair_skip in Hnone.
Qed.

Lemma find_none_app_zeros (bs : bytes) (k : nat) (i : Z) :
  0 <= i →
  Py.find_from [x00; x00] bs i = -1 →
  Py.find_from [x00; x00] (bs ++ replicate k x00) i
  = match k with
    | O => -1
    | S k' =>
        if decide (last bs = Some x00) then i + Z.of_nat (length bs) - 1
        else match k' with O => -1 | S _ => i + Z.of_nat (length bs) end
    end.
Proof.
  revert i. induction bs as [|a bs IH]; intros i Hi Hnone.
  - rewrite app_nil_l. destruct k as [|[|k]].
    + apply find_null_pair_nil.
    + destruct (decide (last [] = Some x00)); [done | apply find_null_pair_single].
    + change (replicate (S (S k)) x00) with (x00 :: x00 :: replicate k x00).
      rewrite find_null_pair_here.
      destruct (decide (last [] = Some x00)); [done | cbn [length]; lia].
  - destruct bs as [|b r].
    + specialize (IH (i + 1) ltac:(lia) (find_null_pair_nil _)).
      rewrite app_nil_l in IH.
      change ([a] ++ replicate k x00) with (a :: replicate k x00).
      destruct k as [|k]; [apply find_null_pair_single|].
      change (replicate (S k) x00) with (x00 :: replicate k x00) in *.
      destruct (decide (last [a] = Some x00)) as [Hl|Hl].
      * cbn in Hl. simplify_eq. rewrite find_null_pair_here. cbn [length]. lia.
      * rewrite find_null_pair_skip by (intros [-> _]; done). rewrite IH.
        destruct (decide (last [] = Some x00)); [done|].
        destruct k; cbn [length]; lia.
    + apply find_none_head in Hnone as [Hne Hnone]; [|done].
      specialize (IH (i + 1) ltac:(lia) Hnone).
      change ((a :: b :: r) ++ replicate k x00) with (a :: b :: (r ++ replicate k x00)).
      rewrite find_null_pair_skip by done.
      change (b :: (r ++ replicate k x00)) with ((b :: r) ++ replicate k x00).
      rewrite IH. destruct k as [|k]; [done|].
      change (last (a :: b :: r)) with (last (b :: r)).
      destruct (decide (last (b :: r) = Some x00)); [cbn [length]; lia|].
      destruct k; cbn [length]; lia.
Qed.

(** Without a pair of zero bytes there is no zero code unit. *)
Lemma find_none_units_nonzero (bs : bytes) (us : list N) (i : Z) :
  0 <= i →
  Py.find_from [x00; x00] bs i = -1 →
  Py.code_units_be bs = Some us →
  Forall (λ u, u ≠ 0%N) us.
Proof.
  remember (length bs) as n eqn:Hn. revert bs us i Hn.
  induction n as [n IH] using lt_wf_ind. intros bs us i -> Hi Hnone Hus.
  destruct bs as [|hi [|lo r]]; cbn [Py.code_units_be] in Hus; simplify_eq; [done|].
  destruct (Py.code_units_be r) as [us'|] eqn:Hr; cbn in Hus; simplify_eq.
  apply find_none_head in Hnone as [Hne Hnone]; [|done].
  constructor.
  - by intros ?%unit_zero.
  - apply (IH (length r) ltac:(cbn; lia) r us' (i + 1 + 1)); [done | lia | | done].
    destruct r as [|b r']; [apply find_null_pair_nil|].
    by apply find_none_head in Hnone as [_ ?]; [|lia].
Qed.

Lemma decode_units_nonzero (us s : list N) :
  Py.decode_units us = Some s → Forall (λ u, u ≠ 0%N) us → Forall (λ u, u ≠ 0%N) s.
Proof.
  remember (length us) as n eqn:Hn. revert us s Hn.
  induction n as [n IH] using lt_wf_ind. intros us s -> Hs Hus.
  destruct us as [|u r]; cbn [Py.decode_units] in Hs; simplify_eq; [done|].
  apply Forall_cons in Hus as [Hu Hr].
  destruct (Py.is_high_surrogate u) eqn:Hh.
  - destruct r as [|l r2]; [done|]. destruct (Py.is_low_surrogate l) eqn:Hl; [|done].
    destruct (Py.decode_units r2) as [s2|] eqn:Hr2; cbn in Hs; simplify_eq.
    apply Forall_cons in Hr as [_ Hr2'].
    constructor; [lia|]. by apply (IH (length r2) ltac:(cbn; lia) r2 s2).
  - destruct (Py.is_low_surrogate u); [done|].
    destruct (Py.decode_units r) as [s2|] eqn:Hr2; cbn in Hs; simplify_eq.
    constructor; [done|]. by apply (IH (length r) ltac:(cbn; lia) r s2).
Qed.

Lemma code_units_be_app_nul (bs : bytes) (us : list N) :
  Py.code_units_be bs = Some us →
  Py.code_units_be (bs ++ [x00; x00]) = Some (us ++ [0%N]).
Proof.
  remember (length bs) as n eqn:Hn. revert bs us Hn.
  induction n as [n IH] using lt_wf_ind. intros bs us -> Hus.
  destruct bs as [|hi [|lo r]]; cbn [Py.code_units_be] in Hus; simplify_eq; [done|].
  destruct (Py.code_units_be r) as [us'|] eqn:Hr; cbn in Hus; simplify_eq.
  change ((hi :: lo :: r) ++ [x00; x00]) with (hi :: lo :: (r ++ [x00; x00])).
  cbn [Py.code_units_be]. by rewrite (IH (length r) ltac:(cbn; lia) r us' eq_refl Hr).
Qed.

Lemma decode_units_app_nul (us s : list N) :
  Py.decode_units us = Some s → Py.decode_units (us ++ [0%N]) = Some (s ++ [0%N]).
Proof.
  remember (length us) as n eqn:Hn. revert us s Hn.
  induction n as [n IH] using lt_wf_ind. intros us s -> Hs.
  destruct us as [|u r]; cbn [Py.decode_units] in Hs; simplify_eq; [done|].
  change ((u :: r) ++ [0%N]) with (u :: (r ++ [0%N])). cbn [Py.decode_units].
  destruct (Py.is_high_surrogate u) eqn:Hh.
  - destruct r as [|l r2]; [done|].
    change ((l :: r2) ++ [0%N]) with (l :: (r2 ++ [0%N])).
    destruct (Py.is_low_surrogate l) eqn:Hl; [|done].
    destruct (Py.decode_units r2) as [s2|] eqn:Hr2; cbn in Hs; simplify_eq.
    by rewrite ?Hl, (IH (length r2) ltac:(cbn; lia) r2 s2 eq_refl Hr2).
  - destruct (Py.is_low_surrogate u) eqn:Hl; [done|].
    destruct (Py.decode_units r) as [s2|] eqn:Hr2; cbn in Hs; simplify_eq.
    by rewrite ?Hl, (IH (length r) ltac:(cbn; lia) r s2 eq_refl Hr2).
Qed.

Lemma rstrip_app_char (c : N) (s : list N) : Py.rstrip c (s ++ [c]) = Py.rstrip c s.
Proof.
  induction s as [|x s IH].
  - cbn. by destruct (decide (c = c)).
  - change ((x :: s) ++ [c]) with (x :: (s ++ [c])). cbn [Py.rstrip]. by rewrite IH.
Qed.

Lemma rstrip_without (c : N) (s : list N) : Forall (λ u, u ≠ c) s → Py.rstrip c s = s.
Proof.
  induction 1 as [|x s Hx _ IH]; [done|].
  cbn [Py.rstrip]. rewrite IH. destruct s; [|done]. by destruct (decide (x = c)).
Qed.

(** X2: when the field holds a name with no pair of zero bytes in it, at any
    offset, followed by zero bytes only (none, or two or more),
    [read_string] returns the characters the name decodes to. *)
Theorem read_string_of_terminated_name (data : bytes) (offset length' : nat)
    (bs : bytes) (k : nat) (s : list N) :
  take length' (drop offset data) = bs ++ replicate k x00 →
  k ≠ 1%nat →
  Py.find bs [x00; x00] = -1 →
  Py.decode_utf16be bs = Return s →
  read_string data offset length' = Return s.
Proof.
  intros Hfield Hk Hnone Hdec. unfold Py.decode_utf16be in Hdec.
  destruct (Py.code_units_be bs) as [us|] eqn:Hus; cbn [mbind option_bind] in Hdec; [|done].
  destruct (Py.decode_units us) as [s'|] eqn:Hs; [|done]. simplify_eq.
  assert (Forall (λ u, u ≠ 0%N) s) as Hnz.
  { eapply decode_units_nonzero; [done|]. by eapply (find_none_units_nonzero bs us 0). }
  pose proof (code_units_be_length _ _ Hus) as Hlen.
  assert (string_data data offset length' = bs ∨
          string_data data offset length' = bs ++ [x00; x00]) as [Hcut|Hcut].
  { unfold string_data. rewrite Hfield. unfold Py.find in *.
    rewrite (find_none_app_zeros bs k 0) by done.
    destruct k as [|[|k]]; [|done|].
    - left. rewrite app_nil_r. by destruct (decide (-1 ≠ -1)).
    - destruct (decide (last bs = Some x00)) as [Hlast|_].
      + left. assert (length us ≠ 0)%nat.
        { intros Hz. destruct bs; [done | cbn in Hlen; lia]. }
        destruct (decide (0 + Z.of_nat (length bs) - 1 ≠ -1)); [|lia].
        destruct (decide ((0 + Z.of_nat (length bs) - 1) mod 2 ≠ 0)) as [_|Heven].
        * replace (Z.to_nat (0 + Z.of_nat (length bs) - 1 - 1 + 2)) with (length bs) by lia.
          by rewrite take_app_length.
        * exfalso. apply Heven. rewrite Hlen.
          replace (0 + Z.of_nat (2 * length us) - 1)
            with (1 + (Z.of_nat (length us) - 1) * 2) by lia.
          by rewrite Z.mod_add.
      + right. destruct (decide (0 + Z.of_nat (length bs) ≠ -1)); [|lia].
        destruct (decide ((0 + Z.of_nat (length bs)) mod 2 ≠ 0)) as [Hodd|_].
        * exfalso. apply Hodd. rewrite Hlen.
          replace (0 + Z.of_nat (2 * length us)) with (0 + Z.of_nat (length us) * 2) by lia.
          by rewrite Z.mod_add.
        * replace (Z.to_nat (0 + Z.of_nat (length bs) + 2)) with (length bs + 2)%nat by lia.
          change (replicate (S (S k)) x00) with ([x00; x00] ++ replicate k x00).
          by rewrite app_assoc, take_app_length'
            by (rewrite length_app; cbn [length]; lia). }
  - unfold read_string, Py.decode_utf16be. rewrite Hcut, Hus. cbn [mbind option_bind].
    rewrite Hs. cbn [mbind outcome_bind]. by rewrite rstrip_without.
  - unfold read_string, Py.decode_utf16be.
    rewrite Hcut, (code_units_be_app_nul _ _ Hus). cbn [mbind option_bind].
    rewrite (decode_units_app_nul _ _ Hs). cbn [mbind outcome_bind].
    by rewrite rstrip_app_char, rstrip_without.
Qed.

Lemma read_string_of_terminated_name_witness :
  take 20 (drop 0 ([x00; x41; x00; x42; x01; x00] ++ replicate 14 x00))
    = [x00; x41; x00; x42; x01; x00] ++ replicate 14 x00 ∧
  14%nat ≠ 1%nat ∧
  Py.find [x00; x41; x00; x42; x01; x00] [x00; x00] = -1 ∧
  Py.decode_utf16be [x00; x41; x00; x42; x01; x00] = Return [0x41; 0x42; 0x100]%N ∧
  read_string ([x00; x41; x00; x42; x01; x00] ++ replicate 14 x00) 0 20
    = Return [0x41; 0x42; 0x100]%N.
Proof.
  assert (14%nat ≠ 1%nat) as Hk by lia.
  split; [reflexivity|]. split; [exact Hk|]. split; [reflexivity|]. split; [reflexivity|].
  exact (read_string_of_terminated_name
           ([x00; x41; x00; x42; x01; x00] ++ replicate 14 x00) 0 20
           [x00; x41; x00; x42; x01; x00] 14 _ eq_refl Hk eq_refl eq_refl).
Defined.
(** *** The dictionary of [read_all_metadata] *)

Lemma Return_inj {A : Type} (a b : A) : Return a = Return b → a = b.
Proof. by intros [= ->]. Qed.

(** The dictionary, field by field, in terms of the two names read and of
    the 16-bit header. *)
Lemma read_all_metadata_inv (b0 b1 : byte) (rest : bytes) (m : metadata) :
  read_all_metadata (b0 :: b1 :: rest) = Return m →
  let data := b0 :: b1 :: rest in
  let v := be16 b0 b1 in
  ∃ name creator,
    read_string data 2 20 = Return name ∧
    read_string data 54 20 = Return creator ∧
    m = {| mii_name := or_default name "Unnamed";
           creator_name := or_default creator "Unknown";
           is_girl := bits_msb v 1 1;
           gender := if truthy (bits_msb v 1 1) then "Female" else "Male";
           birth_month := bits_msb v 2 5;
           birth_day := bits_msb v 6 10;
           birthday := if truthy (bits_msb v 2 5) && truthy (bits_msb v 6 10)
                       then Py.str_int (bits_msb v 2 5) +:+ "/" +:+ Py.str_int (bits_msb v 6 10)
                       else "Not set";
           favorite_color := get_color_name (bits_msb v 11 14);
           favorite_color_index := bits_msb v 11 14;
           is_favorite := bits_msb v 15 15;
           mii_id := Py.upper (Py.hex (read_mii_id data)) |}.
Proof.
  intros Hm data v. unfold read_all_metadata, read_mii_name, read_creator_name in Hm.
  rewrite read_mii_metadata_two_bytes in Hm. fold data v in Hm.
  destruct (read_string data 2 20) as [name|]; [|done].
  destruct (read_string data 54 20) as [creator|]; [|done].
  cbn [mbind outcome_bind Py.getitem header_fields lookup list_lookup] in Hm.
  exists name, creator. split; [reflexivity|]. split; [reflexivity|].
  symmetry. exact (Return_inj _ _ Hm).
Qed.

Lemma bits_msb_range (v first last : Z) :
  first <= last → 0 <= bits_msb v first last < 2 ^ (last - first + 1).
Proof.
  intros Hle. unfold bits_msb. rewrite Z.land_ones by lia.
  apply Z.mod_pos_bound. apply Z.pow_pos_nonneg; lia.
Qed.

(** X3: in a dictionary that is returned, [is_girl] and [is_favorite] are 0
    or 1, [birth_month] is at most 15, [birth_day] at most 31 and
    [favorite_color_index] at most 15; [gender] is [Female] exactly when
    [is_girl] is 1 and [Male] exactly when it is 0; [birthday] is [Not set]
    exactly when the month or the day is 0, and month, slash, day
    otherwise. *)
Theorem metadata_header_fields (data : bytes) (m : metadata) :
  read_all_metadata data = Return m →
  (is_girl m = 0 ∨ is_girl m = 1) ∧
  (is_favorite m = 0 ∨ is_favorite m = 1) ∧
  0 <= birth_month m <= 15 ∧
  0 <= birth_day m <= 31 ∧
  0 <= favorite_color_index m <= 15 ∧
  (gender m = "Female" ↔ is_girl m = 1) ∧
  (gender m = "Male" ↔ is_girl m = 0) ∧
  (birthday m = "Not set" ↔ birth_month m = 0 ∨ birth_day m = 0) ∧
  (birth_month m ≠ 0 → birth_day m ≠ 0 →
   birthday m = Py.str_int (birth_month m) +:+ "/" +:+ Py.str_int (birth_day m)).
Proof.
  intros Hm.
  destruct data as [|b0 [|b1 rest]].
  { by vm_compute in Hm. }
  { unfold read_all_metadata in Hm.
    destruct (read_mii_name [b0]); [|done]. destruct (read_creator_name [b0]); [|done].
    cbn [mbind outcome_bind] in Hm. by destruct b0; vm_compute in Hm. }
  apply read_all_metadata_inv in Hm as (name & creator & _ & _ & ->).
  cbn [is_girl is_favorite birth_month birth_day favorite_color_index gender birthday].
  set (v := be16 b0 b1).
  pose proof (bits_msb_range v 1 1 ltac:(lia)) as Hg.
  pose proof (bits_msb_range v 15 15 ltac:(lia)) as Hf.
  pose proof (bits_msb_range v 2 5 ltac:(lia)) as Hmo.
  pose proof (bits_msb_range v 6 10 ltac:(lia)) as Hd.
  pose proof (bits_msb_range v 11 14 ltac:(lia)) as Hc.
  change (2 ^ (1 - 1 + 1)) with 2 in Hg. change (2 ^ (15 - 15 + 1)) with 2 in Hf.
  change (2 ^ (5 - 2 + 1)) with 16 in Hmo. change (2 ^ (10 - 6 + 1)) with 32 in Hd.
  change (2 ^ (14 - 11 + 1)) with 16 in Hc.
  set (g := bits_msb v 1 1) in *. set (mo := bits_msb v 2 5) in *.
  set (d := bits_msb v 6 10) in *.
  unfold truthy.
  split; [lia|]. split; [lia|]. split; [lia|]. split; [lia|]. split; [lia|].
  split; [|split; [|split]].
  - destruct (Z.eqb_spec g 0); cbn [negb]; split; intros; first [done | lia].
  - destruct (Z.eqb_spec g 0); cbn [negb]; split; intros; first [done | lia].
  - destruct (Z.eqb_spec mo 0) as [|Hmo0]; cbn [negb andb]; [by split; auto|].
    destruct (Z.eqb_spec d 0) as [|Hd0]; cbn [negb andb]; [by split; auto|].
    split; [|intros [?|?]; done].
    assert (mo = 1 ∨ mo = 2 ∨ mo = 3 ∨ mo = 4 ∨ mo = 5 ∨ mo = 6 ∨ mo = 7 ∨ mo = 8 ∨
            mo = 9 ∨ mo = 10 ∨ mo = 11 ∨ mo = 12 ∨ mo = 13 ∨ mo = 14 ∨ mo = 15) as Hcases
      by lia.
    intros Hstr. exfalso.
    repeat (destruct Hcases as [Hcase|Hcases]; [rewrite Hcase in Hstr; by vm_compute in Hstr|]).
    rewrite Hcases in Hstr. by vm_compute in Hstr.
  - intros Hmo0 Hd0.
    destruct (Z.eqb_spec mo 0); [done|]. by destruct (Z.eqb_spec d 0).
Qed.

Lemma metadata_header_fields_witness :
  read_all_metadata (replicate 74 x41)
    = Return {| mii_name := replicate 10 0x4141%N; creator_name := replicate 10 0x4141%N;
                is_girl := 1; gender := "Female"; birth_month := 0; birth_day := 10;
                birthday := "Not set"; favorite_color := "Red";
                favorite_color_index := 0; is_favorite := 1; mii_id := "41414141" |} ∧
  ("Female" = "Female" ↔ 1 = 1) ∧ ("Not set" = "Not set" ↔ 0 = 0 ∨ 10 = 0).
Proof.
  assert (read_all_metadata (replicate 74 x41)
    = Return {| mii_name := replicate 10 0x4141%N; creator_name := replicate 10 0x4141%N;
                is_girl := 1; gender := "Female"; birth_month := 0; birth_day := 10;
                birthday := "Not set"; favorite_color := "Red";
                favorite_color_index := 0; is_favorite := 1; mii_id := "41414141" |})
    as Hrun by (vm_compute; reflexivity).
  pose proof (metadata_header_fields _ _ Hrun) as (_ & _ & _ & _ & _ & Hg & _ & Hb & _).
  split; [exact Hrun|]. split; [exact Hg | exact Hb].
Defined.
Lemma str_int_inj (n m : Z) : Py.str_int n = Py.str_int m → n = m.
Proof.
  unfold Py.str_int. intros Heq. apply DecimalZ.to_int_inj.
  assert (∀ z, NilZero.int_of_string (NilZero.string_of_int (Z.to_int z))
               = Some (Z.to_int z)) as Hisi.
  { intros z. apply NilZero.isi; destruct z; cbn; try done.
    - intros [=E]. by apply DecimalPos.Unsigned.to_uint_nonnil in E.
    - intros [=E]. by apply DecimalPos.Unsigned.to_uint_nonnil in E. }
  pose proof (Hisi n) as Hn. rewrite Heq, Hisi in Hn. by simplify_eq.
Qed.

Lemma get_color_name_in_range (i : Z) :
  0 <= i < 12 → colors !! Z.to_nat i = Some (get_color_name i) ∧
                ∀ s, get_color_name i ≠ "Unknown (" +:+ s.
Proof.
  intros Hi.
  assert (i = 0 ∨ i = 1 ∨ i = 2 ∨ i = 3 ∨ i = 4 ∨ i = 5 ∨ i = 6 ∨ i = 7 ∨ i = 8 ∨
          i = 9 ∨ i = 10 ∨ i = 11) as Hcases by lia.
  repeat (destruct Hcases as [->|Hcases]; [split; [reflexivity|];
            intros s; vm_compute; rewrite ?append_String; discriminate|]).
  subst i. split; [reflexivity|]. intros s; vm_compute; discriminate.
Qed.

Lemma get_color_name_out_of_range (i : Z) :
  ¬ 0 <= i < 12 → get_color_name i = "Unknown (" +:+ Py.str_int i +:+ ")".
Proof.
  intros Hi. unfold get_color_name. change (Z.of_nat (length colors)) with 12.
  destruct (Z.leb_spec 0 i); [|done]. destruct (Z.ltb_spec i 12); [lia | done].
Qed.

(** X4: [get_color_name] gives the entry of the table for an index from 0
    to 11 and [Unknown (n)] for any other integer [n], negative ones
    included; and two different indices never get the same name, so that the
    name tells the index. *)
Theorem get_color_name_tells_index (i j : Z) :
  (if decide (0 <= i < 12) then colors !! Z.to_nat i = Some (get_color_name i)
   else get_color_name i = "Unknown (" +:+ Py.str_int i +:+ ")") ∧
  (get_color_name i = get_color_name j ↔ i = j).
Proof.
  split.
  - destruct (decide (0 <= i < 12)) as [Hi|Hi].
    + by apply get_color_name_in_range.
    + by apply get_color_name_out_of_range.
  - split; [|by intros ->]. intros Heq.
    destruct (decide (0 <= i < 12)) as [Hi|Hi], (decide (0 <= j < 12)) as [Hj|Hj].
    + destruct (get_color_name_in_range i Hi) as [Hci _].
      destruct (get_color_name_in_range j Hj) as [Hcj _].
      rewrite Heq in Hci.
      assert (NoDup colors) as Hnd by (apply (bool_decide_unpack _); vm_compute; exact I).
      pose proof (NoDup_lookup _ _ _ _ Hnd Hci Hcj). lia.
    + destruct (get_color_name_in_range i Hi) as [_ Hne].
      rewrite (get_color_name_out_of_range j Hj) in Heq. by apply Hne in Heq.
    + destruct (get_color_name_in_range j Hj) as [_ Hne].
      rewrite (get_color_name_out_of_range i Hi) in Heq. symmetry in Heq. by apply Hne in Heq.
    + rewrite (get_color_name_out_of_range i Hi), (get_color_name_out_of_range j Hj) in Heq.
      by apply String.app_inj, append_inj_l, str_int_inj in Heq.
Qed.

(** *** Names *)

Lemma read_all_metadata_two_bytes (data : bytes) (m : metadata) :
  read_all_metadata data = Return m → ∃ b0 b1 rest, data = b0 :: b1 :: rest.
Proof.
  intros Hm. destruct data as [|b0 [|b1 rest]]; [..|by eauto].
  - by vm_compute in Hm.
  - exfalso. unfold read_all_metadata in Hm.
    destruct (read_mii_name [b0]); [|done]. destruct (read_creator_name [b0]); [|done].
    cbn [mbind outcome_bind] in Hm.
    assert (forallb (λ b, match read_mii_metadata [b] with Raise _ => true | _ => false end)
              all_bytes = true) as Hall by (vm_compute; reflexivity).
    rewrite forallb_forall in Hall.
    specialize (Hall b0 (proj1 (list_elem_of_In _ _) (all_bytes_complete b0))).
    by destruct (read_mii_metadata [b0]).
Qed.

(** A field that starts with a zero code unit is the empty string. *)
Lemma read_string_empty_name (data : bytes) (offset : nat) :
  take 2 (drop offset data) = [x00; x00] → read_string data offset 20 = Return [].
Proof.
  intros Hzero.
  destruct (drop offset data) as [|z0 [|z1 r]] eqn:Hdrop; try done.
  change (take 2 (z0 :: z1 :: r)) with [z0; z1] in Hzero. simplify_eq.
  unfold read_string.
  rewrite (string_data_found data offset 20 0 2); [| |done..].
  - by rewrite Hdrop.
  - rewrite Hdrop. apply find_null_pair_here.
Qed.

(** X5: the two names of a dictionary that is returned are never empty: a
    field that decodes to the empty string, as one that starts with a zero
    code unit does, is given as [Unnamed] for the name of the Mii and as
    [Unknown] for the name of the creator. *)
Theorem metadata_names_defaulted (data : bytes) (m : metadata) :
  read_all_metadata data = Return m →
  mii_name m ≠ [] ∧ creator_name m ≠ [] ∧
  (take 2 (drop 2 data) = [x00; x00] → mii_name m = Py.code_points "Unnamed") ∧
  (take 2 (drop 54 data) = [x00; x00] → creator_name m = Py.code_points "Unknown") ∧
  (∀ name, read_string data 2 20 = Return name → name ≠ [] → mii_name m = name) ∧
  (∀ name, read_string data 54 20 = Return name → name ≠ [] → creator_name m = name).
Proof.
  intros Hm. destruct (read_all_metadata_two_bytes _ _ Hm) as (b0 & b1 & rest & ->).
  apply read_all_metadata_inv in Hm as (name & creator & Hname & Hcreator & ->).
  cbn [mii_name creator_name].
  split; [by destruct name|]. split; [by destruct creator|].
  split; [|split; [|split]].
  - intros Hz%read_string_empty_name. rewrite Hz in Hname. by simplify_eq.
  - intros Hz%read_string_empty_name. rewrite Hz in Hcreator. by simplify_eq.
  - intros name' Hn Hne. rewrite Hn in Hname. simplify_eq. by destruct name.
  - intros name' Hn Hne. rewrite Hn in Hcreator. simplify_eq. by destruct creator.
Qed.

Lemma metadata_names_defaulted_witness :
  read_all_metadata (replicate 74 x00)
    = Return {| mii_name := Py.code_points "Unnamed";
                creator_name := Py.code_points "Unknown";
                is_girl := 0; gender := "Male"; birth_month := 0; birth_day := 0;
                birthday := "Not set"; favorite_color := "Red";
                favorite_color_index := 0; is_favorite := 0; mii_id := "00000000" |} ∧
  Py.code_points "Unnamed" ≠ [] ∧ Py.code_points "Unknown" ≠ [].
Proof.
  assert (read_all_metadata (replicate 74 x00)
    = Return {| mii_name := Py.code_points "Unnamed";
                creator_name := Py.code_points "Unknown";
                is_girl := 0; gender := "Male"; birth_month := 0; birth_day := 0;
                birthday := "Not set"; favorite_color := "Red";
                favorite_color_index := 0; is_favorite := 0; mii_id := "00000000" |})
    as Hrun by (vm_compute; reflexivity).
  pose proof (metadata_names_defaulted _ _ Hrun) as (Hn & Hc & _).
  split; [exact Hrun|]. split; [exact Hn | exact Hc].
Defined.
(** *** The identifier *)

Lemma upper_append (s1 s2 : string) : Py.upper (s1 +:+ s2) = Py.upper s1 +:+ Py.upper s2.
Proof.
  induction s1 as [|c s1 IH]; [done|].
  rewrite append_String. cbn [Py.upper]. by rewrite append_String, IH.
Qed.

Lemma length_upper (s : string) : String.length (Py.upper s) = String.length s.
Proof. induction s as [|c s IH]; cbn; [done | by rewrite IH]. Qed.

Lemma int_digits_upper_hex_of_byte (b : byte) (acc : Z) (s : string) :
  Py.int_digits 16 acc (Py.upper (Py.hex_of_byte b) +:+ s)
  = Py.int_digits 16 (acc * 256 + byte_val b) s.
Proof.
  destruct b;
    match goal with
    | |- context [Py.upper ?h] =>
        let v := eval vm_compute in (Py.upper h) in change (Py.upper h) with v
    end;
    rewrite !append_String, append_empty; cbn [Py.int_digits];
    compute_call Py.digit_value; cbn; f_equal; lia.
Qed.

(** X6: [mii_id] is the eight uppercase hexadecimal digits of bytes 24 to
    27; read back in base 16 it is their big-endian value; and these are the
    bytes of the timestamp of a Wii record, whose seconds are that value
    without its top four bits, times 4. *)
Theorem mii_id_of_bytes (data : bytes) (b0 b1 b2 b3 : byte) (rest : bytes) (m : metadata) :
  drop 24 data = b0 :: b1 :: b2 :: b3 :: rest →
  read_all_metadata data = Return m →
  mii_id m = Py.upper (Py.hex [b0; b1; b2; b3]) ∧
  String.length (mii_id m) = 8%nat ∧
  Py.int (mii_id m) 16 = Return (be32 b0 b1 b2 b3) ∧
  (v ← Py.int (mii_id m) 16; Return (v mod 2 ^ 28 * 4))
    = Timestamp.get_mii_seconds data true.
Proof.
  intros Hid Hm. destruct (read_all_metadata_two_bytes _ _ Hm) as (c0 & c1 & rest' & Hdata).
  rewrite Hdata in Hm. apply read_all_metadata_inv in Hm as (name & creator & _ & _ & ->).
  rewrite <- Hdata. cbn [mii_id]. unfold read_mii_id. rewrite Hid.
  change (take 4 (b0 :: b1 :: b2 :: b3 :: rest)) with [b0; b1; b2; b3].
  assert (Py.int (Py.upper (Py.hex [b0; b1; b2; b3])) 16 = Return (be32 b0 b1 b2 b3)) as Hint.
  { cbn [Py.hex]. rewrite !upper_append. change (Py.upper "") with EmptyString.
    unfold Py.int.
    assert (Py.int_digits 16 0
              (Py.upper (Py.hex_of_byte b0) +:+ Py.upper (Py.hex_of_byte b1) +:+
               Py.upper (Py.hex_of_byte b2) +:+ Py.upper (Py.hex_of_byte b3) +:+ "")
            = Some (be32 b0 b1 b2 b3)) as ->.
    { rewrite !int_digits_upper_hex_of_byte. cbn [Py.int_digits]. unfold be32.
      f_equal; lia. }
    unfold Py.hex_of_byte at 1. cbn [Py.upper]. by rewrite append_String. }
  split; [done|]. split; [|split; [done|]].
  - rewrite length_upper. cbn [Py.hex]. rewrite !length_append. reflexivity.
  - rewrite Hint. cbn [mbind outcome_bind].
    by rewrite (get_mii_seconds_on_field data true b0 b1 b2 b3 rest).
Qed.

Lemma mii_id_of_bytes_witness :
  drop 24 stamped_record = x90 :: x00 :: x00 :: x64 :: replicate 46 x00 ∧
  (∃ m, read_all_metadata stamped_record = Return m ∧
        mii_id m = "90000064" ∧
        Py.int (mii_id m) 16 = Return 0x90000064) ∧
  Timestamp.get_mii_seconds stamped_record true = Return 400.
Proof.
  destruct (read_all_metadata stamped_record) as [m|e] eqn:Hrun; [|by vm_compute in Hrun].
  pose proof (mii_id_of_bytes stamped_record x90 x00 x00 x64 (replicate 46 x00) m
                eq_refl Hrun) as (Hid & _ & Hint & Hsec).
  split; [reflexivity|]. split.
  - exists m. split; [reflexivity|]. split; [exact Hid | exact Hint].
  - rewrite <- Hsec, Hint. reflexivity.
Defined.
End ReaderProperties.

(** ** Further properties of the timestamp decoder *)

Section TimestampFurther.
Import Timestamp.

Lemma int_digits_nil (base acc : Z) : Py.int_digits base acc "" = Some acc.
Proof. reflexivity. Qed.

Lemma get_mii_seconds_cases (file : bytes) (is_wii_mii : bool) :
  match get_mii_seconds file is_wii_mii with
  | Return v =>
      (seek_pos is_wii_mii < length file)%nat ∧
      0 <= v < 2 ^ 30 ∧ v mod multiplier is_wii_mii = 0
  | Raise e =>
      (length file ≤ seek_pos is_wii_mii)%nat ∧
      e = ValueError "invalid literal for int() with base 16: ''"
  end.
Proof.
  assert (0 < multiplier is_wii_mii <= 4) as Hmul by (destruct is_wii_mii; cbn; lia).
  pose proof (length_drop file (seek_pos is_wii_mii)) as Hlen.
  destruct (drop (seek_pos is_wii_mii) file) as [|b0 [|b1 [|b2 [|b3 rest]]]] eqn:Hdrop;
    cbn [length] in Hlen;
    [unfold get_mii_seconds, Py.read_at; rewrite Hdrop..|].
  - cbn. split; [lia | done].
  - pose proof (byte_val_range b0).
    change (Py.slice_from (Py.hex (take 4 [b0])) 1)
      with (String (Py.hex_digit (Byte.to_N b0 mod 16)) "").
    unfold Py.int. rewrite int_digits_low_digit, int_digits_nil. cbn [mbind outcome_bind].
    pose proof (Z.mod_pos_bound (byte_val b0) 16 ltac:(lia)).
    split; [lia|]. split; [nia | apply Z.mod_mul; lia].
  - pose proof (byte_val_range b0). pose proof (byte_val_range b1).
    change (Py.slice_from (Py.hex (take 4 [b0; b1])) 1)
      with (String (Py.hex_digit (Byte.to_N b0 mod 16)) (Py.hex_of_byte b1 +:+ "")).
    unfold Py.int.
    rewrite int_digits_low_digit, !int_digits_hex_of_byte, int_digits_nil.
    cbn [mbind outcome_bind].
    pose proof (Z.mod_pos_bound (byte_val b0) 16 ltac:(lia)).
    split; [lia|]. split; [nia | apply Z.mod_mul; lia].
  - pose proof (byte_val_range b0). pose proof (byte_val_range b1).
    pose proof (byte_val_range b2).
    change (Py.slice_from (Py.hex (take 4 [b0; b1; b2])) 1)
      with (String (Py.hex_digit (Byte.to_N b0 mod 16))
              (Py.hex_of_byte b1 +:+ Py.hex_of_byte b2 +:+ "")).
    unfold Py.int.
    rewrite int_digits_low_digit, !int_digits_hex_of_byte, int_digits_nil.
    cbn [mbind outcome_bind].
    pose proof (Z.mod_pos_bound (byte_val b0) 16 ltac:(lia)).
    split; [lia|]. split; [nia | apply Z.mod_mul; lia].
  - rewrite (get_mii_seconds_on_field file is_wii_mii b0 b1 b2 b3 rest Hdrop).
    pose proof (Z.mod_pos_bound (be32 b0 b1 b2 b3) (2 ^ 28) ltac:(lia)).
    split; [lia|]. split; [nia | apply Z.mod_mul; lia].
Qed.

(** X7: [get_mii_seconds] raises, and then a [ValueError], exactly when the
    file ends at or before the place of the timestamp; otherwise it returns
    a multiple of the multiplier, from 0 to below [2 ^ 30], read from the
    bytes that are there, even when they are fewer than four. *)
Theorem get_mii_seconds_domain (file : bytes) (is_wii_mii : bool) :
  match get_mii_seconds file is_wii_mii with
  | Return v =>
      (seek_pos is_wii_mii < length file)%nat ∧
      0 <= v < 2 ^ 30 ∧ v mod multiplier is_wii_mii = 0
  | Raise e =>
      (length file ≤ seek_pos is_wii_mii)%nat ∧
      e = ValueError "invalid literal for int() with base 16: ''"
  end.
Proof. apply get_mii_seconds_cases. Qed.
(** X8: the creation time that [times] computes for a file exists exactly
    when the file has 74 or 92 bytes; it is then at most [2 ^ 30] seconds
    after the epoch of the mode, 2006-01-01 for 74 bytes and 2010-01-01 for 92,
    and never before it; on any other size the [ValueError] of [get_mii_mode]
    comes out. *)
Theorem creation_time_by_size (name : string) (content : bytes) :
  match Main.creation_time name content with
  | Return dt =>
      ∃ is_wii_mii : bool,
        length content = (if is_wii_mii then 74 else 92)%nat ∧
        let epoch := Py.datetime_ymd (if is_wii_mii then 2006 else 2010) 1 1 in
        Py.total_seconds epoch <= Py.total_seconds dt < Py.total_seconds epoch + 2 ^ 30
  | Raise e =>
      length content ≠ 74%nat ∧ length content ≠ 92%nat ∧
      e = ValueError (name +:+ "'s format is unknown (size: "
                      +:+ Py.str_int (Z.of_nat (length content)) +:+ ")")
  end.
Proof.
  assert (∀ is_wii_mii : bool,
            length content = (if is_wii_mii then 74 else 92)%nat →
            match seconds ← get_mii_seconds content is_wii_mii;
                  get_mii_datetime seconds is_wii_mii with
            | Return dt =>
                let epoch := Py.datetime_ymd (if is_wii_mii then 2006 else 2010) 1 1 in
                Py.total_seconds epoch <= Py.total_seconds dt
                  < Py.total_seconds epoch + 2 ^ 30
            | Raise _ => False
            end) as Hmode.
  { intros w Hlen. pose proof (get_mii_seconds_cases content w) as Hsec.
    destruct (get_mii_seconds content w) as [v|e]; cbn [mbind outcome_bind].
    - destruct Hsec as (_ & Hv & _). rewrite get_mii_datetime_in_range by done.
      unfold Py.total_seconds. cbn [Py.dt_ordinal Py.dt_second].
      assert (base_date w = Py.datetime_ymd (if w then 2006 else 2010) 1 1) as <-
        by (by destruct w).
      assert (Py.dt_second (base_date w) = 0) as -> by (by destruct w).
      pose proof (Z.div_mod v 86400 ltac:(lia)).
      cbn zeta. lia.
    - destruct Hsec as [Hshort _]. destruct w; cbn in Hshort; lia. }
  unfold Main.creation_time, get_mii_mode.
  destruct (Z.eqb_spec (Z.of_nat (length content)) 74) as [H74|H74].
  { cbn [mbind outcome_bind]. specialize (Hmode true ltac:(cbn; lia)).
    destruct (_ ≫= _) as [dt|]; [|done]. exists true. split; [lia | exact Hmode]. }
  destruct (Z.eqb_spec (Z.of_nat (length content)) 92) as [H92|H92].
  { cbn [mbind outcome_bind]. specialize (Hmode false ltac:(cbn; lia)).
    destruct (_ ≫= _) as [dt|]; [|done]. exists false. split; [lia | exact Hmode]. }
  cbn [mbind outcome_bind]. split; [lia|]. split; [lia | done].
Qed.
End TimestampFurther.

(** ** File names *)

Lemma read_decimal_zeros (k : nat) (s : string) :
  read_decimal (Py.zeros k +:+ s) = read_decimal s.
Proof.
  induction k as [|k IH]; [done|].
  unfold read_decimal in *. cbn [Py.zeros]. rewrite append_String.
  cbn [NilEmpty.uint_of_string].
  rewrite <- IH.
  by destruct (NilEmpty.uint_of_string (Py.zeros k +:+ s)).
Qed.

(** The five-digit form can be read back, so it tells the numbers apart. *)
Lemma read_decimal_format_05d (n : nat) : read_decimal (Py.format_05d n) = Some n.
Proof.
  unfold Py.format_05d. rewrite read_decimal_zeros. unfold read_decimal.
  rewrite NilEmpty.usu. change (Some (Nat.of_uint (Nat.to_uint n)) = Some n).
  by rewrite DecimalNat.Unsigned.of_to.
Qed.

Lemma mii_name_inj (mii_type : Extractor.MiiType) (i j : nat) :
  Extractor.mii_name mii_type i = Extractor.mii_name mii_type j → i = j.
Proof.
  unfold Extractor.mii_name. intros Heq%String.app_inj%append_inj_l.
  apply (f_equal read_decimal) in Heq. rewrite !read_decimal_format_05d in Heq.
  by simplify_eq.
Qed.

(** ** Record scanner *)

Section ExtractProperties.
Import FS Extractor.
Context `{PathOps Path}.
Variable mii_type : MiiType.
Variable output_dir : Path.

Local Abbreviation size := (SIZE mii_type).
Local Abbreviation limit := (LIMIT mii_type).
Local Abbreviation loop := (Extractor.loop mii_type output_dir).
Local Abbreviation body := (Extractor.body mii_type output_dir).
Local Abbreviation guard := (Extractor.guard mii_type).
Local Abbreviation output_path := (Extractor.output_path mii_type output_dir).
Local Abbreviation empty_mii := (Extractor.empty_mii mii_type).
Local Abbreviation mii_padding := (Extractor.mii_padding mii_type).
Local Abbreviation body_case := (Extractor.body_case mii_type output_dir).

Lemma write_file_Return (p : Path) (c : bytes) (fs fs' : filesystem Path) :
  write_file p c fs = Return fs' →
  nodes fs' = <[p := File c]> (nodes fs) ∧
  refuses fs' = refuses fs ∧
  journal fs' = journal fs ++ [(p, c)].
Proof.
  unfold write_file. intros Hw.
  destruct (refuses fs OpenWrite p); [done|].
  destruct (nodes fs !! p) as [[?|]|]; by simplify_eq.
Qed.

Lemma body_cases (st : locals Path) (fs : filesystem Path) :
  body_case st fs (body st fs).
Proof.
  unfold Extractor.body.
  case_bool_decide as Hshort.
  - rewrite length_take in Hshort.
    rewrite take_ge, drop_ge by lia. apply body_short. lia.
  - destruct (decide (take size (infile st) = empty_mii)) as [Hempty|Hne].
    + rewrite Hempty. by apply body_skip.
    + assert (length (take size (infile st)) = size) as Hfull
        by (rewrite length_take in *; lia).
      destruct (write_file _ _ fs) as [fs'|e] eqn:Hw.
      * by apply body_emit.
      * by apply body_refused.
Qed.

Lemma loop_done (fuel : nat) (st : locals Path) (fs : filesystem Path) :
  guard st = false → loop fuel st fs = Some (Return st, fs).
Proof. intros Hg. destruct fuel; cbn; by rewrite Hg. Qed.

Lemma loop_step (fuel : nat) (st : locals Path) (fs : filesystem Path) :
  guard st = true →
  loop (S fuel) st fs
  = match body st fs with
    | (Return st', fs') => loop fuel st' fs'
    | (Raise e, fs') => Some (Raise e, fs')
    end.
Proof. intros Hg. cbn. by rewrite Hg. Qed.

Lemma loop_out_of_fuel (st : locals Path) (fs : filesystem Path) :
  guard st = true → loop 0 st fs = None.
Proof. intros Hg. cbn. by rewrite Hg. Qed.

(** A block of the rest of the stream is a block of the stream. *)
Lemma record_of_drop (s r : bytes) :
  record_of mii_type (drop size s) r → record_of mii_type s r.
Proof.
  intros (j & -> & Hlen & Hne). exists (S j).
  rewrite drop_drop in *. by replace (S j * size)%nat with (size + j * size)%nat by lia.
Qed.

Lemma record_of_first (s : bytes) :
  length (take size s) = size → take size s ≠ empty_mii →
  record_of mii_type s (take size s).
Proof. intros Hlen Hne. by exists 0%nat. Qed.

Lemma record_of_nil (r : bytes) : ¬ record_of mii_type [] r.
Proof.
  intros (j & -> & Hlen & Hne). apply Hne.
  rewrite drop_nil, take_nil in *. cbn in Hlen.
  unfold Extractor.empty_mii. by rewrite <- Hlen.
Qed.

Lemma written_for_cons (count : nat) (r : bytes) (recs : list bytes) :
  written_for mii_type output_dir count (r :: recs)
  = (output_path count, r ++ PADDING mii_type)
      :: written_for mii_type output_dir (S count) recs.
Proof.
  unfold written_for. rewrite imap_cons, Nat.add_0_r. f_equal.
  apply imap_ext. intros i x _. cbn. by rewrite Nat.add_succ_r.
Qed.

Lemma guard_true (st : locals Path) :
  guard st = true → is_active st = true ∧ (mii_count st < limit)%nat.
Proof.
  unfold Extractor.guard. intros [? ?%bool_decide_eq_true]%andb_true_iff. done.
Qed.

(** What one run of the loop does, whatever its outcome: it writes, in the
    order of the stream, records of the stream that are not empty slots, each
    followed by the padding, under the names of the successive values of the
    counter; and on a normal exit the counter and the list of paths have
    grown by these very records. *)
Lemma loop_trace (fuel : nat) (st : locals Path) (fs : filesystem Path)
    (o : outcome (locals Path)) (fs' : filesystem Path) :
  loop fuel st fs = Some (o, fs') →
  ∃ recs : list bytes,
    journal fs' = journal fs ++ written_for mii_type output_dir (mii_count st) recs ∧
    Forall (record_of mii_type (infile st)) recs ∧
    ((mii_count st ≤ limit)%nat → (mii_count st + length recs ≤ limit)%nat) ∧
    ∀ st', o = Return st' →
      mii_count st' = (mii_count st + length recs)%nat ∧
      extracted_files st'
      = extracted_files st ++ (output_path <$> seq (mii_count st) (length recs)).
Proof.
  assert (∀ (st : locals Path) (fs : filesystem Path) (o : outcome (locals Path)),
            (∀ st', o = Return st' → st' = st) →
            ∃ recs : list bytes,
              journal fs = journal fs ++ written_for mii_type output_dir (mii_count st) recs ∧
              Forall (record_of mii_type (infile st)) recs ∧
              ((mii_count st ≤ limit)%nat → (mii_count st + length recs ≤ limit)%nat) ∧
              ∀ st', o = Return st' →
                mii_count st' = (mii_count st + length recs)%nat ∧
                extracted_files st'
                = extracted_files st ++ (output_path <$> seq (mii_count st) (length recs)))
    as Hnone.
  { intros st0 fs0 o0 Ho. exists []. cbn. rewrite !app_nil_r, Nat.add_0_r.
    split; [done|]. split; [done|]. split; [done|].
    intros st' ->%Ho. done. }
  revert st fs. induction fuel as [|fuel IH]; intros st fs Hloop;
    (destruct (guard st) eqn:Hg;
     [| rewrite loop_done in Hloop by done; simplify_eq;
        apply Hnone; by intros; simplify_eq]).
  - by rewrite loop_out_of_fuel in Hloop.
  - rewrite loop_step in Hloop by done.
    apply guard_true in Hg as [Hact Hlt].
    pose proof (body_cases st fs) as Hb.
    destruct (body st fs) as [o1 fs1].
    inversion Hb as [Hshort|Hempty|e Hfull Hne Hw|fs2 Hfull Hne Hw]; subst o1 fs1; clear Hb.
    + apply IH in Hloop as (recs & Hj & Hrecs & Hbound & Hret).
      cbn [infile mii_count extracted_files] in *.
      exists recs. split; [done|]. split; [|done].
      eapply Forall_impl; [exact Hrecs|]. intros r Hr. by apply record_of_nil in Hr.
    + apply IH in Hloop as (recs & Hj & Hrecs & Hbound & Hret).
      cbn [infile mii_count extracted_files] in *.
      exists recs. split; [done|]. split; [|done].
      eapply Forall_impl; [exact Hrecs|]. apply record_of_drop.
    + simplify_eq. apply Hnone. by intros.
    + apply IH in Hloop as (recs & Hj & Hrecs & Hbound & Hret).
      cbn [infile mii_count extracted_files] in *.
      apply write_file_Return in Hw as (_ & _ & Hw).
      exists (take size (infile st) :: recs).
      split; [|split; [|split]].
      * rewrite Hj, Hw, written_for_cons, <- app_assoc. done.
      * constructor; [by apply record_of_first|].
        eapply Forall_impl; [exact Hrecs|]. apply record_of_drop.
      * intros _. cbn [length]. lia.
      * intros st' [-> ->]%Hret. cbn [length seq fmap list_fmap].
        rewrite <- app_assoc. split; [lia | done].
Qed.

(** With records of at least one byte the loop ends: a pass either stops it
    or takes [SIZE] bytes off the stream. *)
Lemma loop_terminates (fuel : nat) (st : locals Path) (fs : filesystem Path) :
  (0 < size)%nat → (length (infile st) < fuel)%nat → is_Some (loop fuel st fs).
Proof.
  intros Hsize. revert st fs. induction fuel as [|fuel IH]; intros st fs Hlen; [lia|].
  destruct (guard st) eqn:Hg; [|by rewrite loop_done].
  rewrite loop_step by done.
  pose proof (body_cases st fs) as Hb.
  destruct (body st fs) as [o1 fs1].
  inversion Hb as [Hshort|Hempty|e Hfull Hne Hw|fs2 Hfull Hne Hw]; subst o1 fs1; clear Hb.
  - by rewrite loop_done.
  - apply IH. cbn [infile]. rewrite length_drop.
    apply (f_equal length) in Hempty.
    unfold Extractor.empty_mii in Hempty. rewrite length_take, length_replicate in Hempty.
    lia.
  - done.
  - apply IH. cbn [infile]. rewrite length_drop. rewrite length_take in Hfull. lia.
Qed.

(** More fuel does not change a result. *)
Lemma loop_fuel_mono (fuel : nat) (st : locals Path) (fs : filesystem Path) r :
  loop fuel st fs = Some r → loop (S fuel) st fs = Some r.
Proof.
  revert st fs. induction fuel as [|fuel IH]; intros st fs Hloop;
    (destruct (guard st) eqn:Hg; [|by rewrite loop_done in *]).
  - by rewrite loop_out_of_fuel in Hloop.
  - rewrite loop_step in * by done.
    destruct (body st fs) as [[st1|e] fs1]; [by apply IH | done].
Qed.

(** Why the loop stops: the counter has reached the limit, or the flag was
    cleared, which only a read of fewer than [SIZE] bytes does. *)
Lemma loop_exit (fuel : nat) (st : locals Path) (fs : filesystem Path)
    (st' : locals Path) (fs' : filesystem Path) :
  loop fuel st fs = Some (Return st', fs') →
  guard st' = false ∧
  ((is_active st = false → (length (mii_data st) < size)%nat) →
   is_active st' = false → (length (mii_data st') < size)%nat).
Proof.
  revert st fs. induction fuel as [|fuel IH]; intros st fs Hloop;
    (destruct (guard st) eqn:Hg;
     [| rewrite loop_done in Hloop by done; by simplify_eq]).
  - by rewrite loop_out_of_fuel in Hloop.
  - rewrite loop_step in Hloop by done.
    apply guard_true in Hg as [Hact Hlt].
    pose proof (body_cases st fs) as Hb.
    destruct (body st fs) as [o1 fs1].
    inversion Hb as [Hshort|Hempty|e Hfull Hne Hw|fs2 Hfull Hne Hw]; subst o1 fs1; clear Hb;
      try done.
    all: apply IH in Hloop as [Hg' Hread]; split; [done|]; intros _;
      apply Hread; cbn [is_active mii_data]; intros Hoff; first [done | congruence].
Qed.

(** *** Empty slots *)

Lemma same_result_refl (o : outcome (locals Path)) : same_result o o.
Proof. by destruct o. Qed.

(** The body looks at the stream through its first [SIZE] bytes only. *)
Lemma body_with_infile (st : locals Path) (s : bytes) (fs : filesystem Path) :
  take size s = take size (infile st) →
  body (with_infile st s) fs
  = match body st fs with
    | (Return st1, fs1) => (Return (with_infile st1 (drop size s)), fs1)
    | (Raise e, fs1) => (Raise e, fs1)
    end.
Proof.
  intros Htake. unfold Extractor.body, with_infile.
  cbn [infile mii_data mii_count is_active extracted_files]. rewrite Htake.
  case_bool_decide; [done|].
  destruct (decide (take size (infile st) = empty_mii)); [done|].
  by destruct (write_file _ _ fs).
Qed.

Lemma body_infile (st : locals Path) (fs : filesystem Path) st1 fs1 :
  body st fs = (Return st1, fs1) → infile st1 = drop size (infile st).
Proof.
  unfold Extractor.body. case_bool_decide; [by intros; simplify_eq|].
  destruct (decide (take size (infile st) = empty_mii)); [by intros; simplify_eq|].
  destruct (write_file _ _ fs); by intros; simplify_eq.
Qed.

(** A pass that reads an empty slot writes nothing and changes neither the
    counter, the flag nor the list: it only moves on in the stream. *)
Lemma body_on_empty_slot (st : locals Path) (rest : bytes) (fs : filesystem Path) :
  body (with_infile st (empty_mii ++ rest)) fs
  = (Return {| infile := rest; mii_data := empty_mii; mii_count := mii_count st;
               is_active := is_active st; extracted_files := extracted_files st |}, fs).
Proof.
  assert (length empty_mii = size) as Hlen by apply length_replicate.
  unfold Extractor.body, with_infile.
  cbn [infile mii_data mii_count is_active extracted_files].
  rewrite take_app_length', drop_app_length' by done.
  case_bool_decide; [lia|].
  by destruct (decide (empty_mii = empty_mii)).
Qed.

(** The last record read is overwritten by the next pass. *)
Lemma loop_forgets_mii_data (fuel : nat) (st : locals Path) (d : bytes)
    (fs : filesystem Path) :
  guard st = true →
  loop fuel {| infile := infile st; mii_data := d; mii_count := mii_count st;
               is_active := is_active st; extracted_files := extracted_files st |} fs
  = loop fuel st fs.
Proof.
  intros Hg. destruct fuel as [|fuel].
  - by rewrite !loop_out_of_fuel.
  - by rewrite !loop_step.
Qed.

Lemma loop_without_empty_slot (k : nat) :
  ∀ (fuel : nat) (st : locals Path) (fs : filesystem Path) (pre post : bytes)
    (o : outcome (locals Path)) (fs' : filesystem Path),
    length pre = (k * size)%nat →
    infile st = pre ++ post →
    loop fuel st fs = Some (o, fs') →
    ∃ o', loop (S fuel) (with_infile st (pre ++ empty_mii ++ post)) fs = Some (o', fs') ∧
          same_result o o'.
Proof.
  induction k as [|k IH]; intros fuel st fs pre post o fs' Hpre Hst Hloop.
  - destruct pre; [|done]. cbn [app] in *.
    destruct (guard st) eqn:Hg.
    + rewrite loop_step by exact Hg. rewrite body_on_empty_slot.
      exists o. split; [|apply same_result_refl].
      rewrite <- Hst, loop_forgets_mii_data by done. done.
    + rewrite loop_done in Hloop by done. simplify_eq.
      rewrite loop_done by exact Hg. eexists; split; [done|]. by cbn.
  - destruct (guard st) eqn:Hg.
    2:{ rewrite loop_done in Hloop by done. simplify_eq.
        rewrite loop_done by exact Hg. eexists; split; [done|]. by cbn. }
    destruct fuel as [|fuel]; [by rewrite loop_out_of_fuel in Hloop|].
    rewrite loop_step in Hloop by done.
    rewrite loop_step by exact Hg.
    rewrite body_with_infile by (rewrite Hst, !take_app_le by lia; done).
    destruct (body st fs) as [[st1|e] fs1] eqn:Hbody.
    2:{ simplify_eq. eexists; split; [done|]. by cbn. }
    apply body_infile in Hbody.
    rewrite Hst, drop_app_le in Hbody by lia.
    destruct (IH fuel st1 fs1 (drop size pre) post o fs') as (o' & Hloop' & Hsame);
      [rewrite length_drop; lia | done | done |].
    exists o'. split; [|done].
    rewrite drop_app_le by lia. exact Hloop'.
Qed.

(** *** The whole function *)

Local Abbreviation extract := (Extractor.extract_miis_from_type mii_type output_dir).
Local Abbreviation source_file := (Extractor.source_file mii_type).
Local Abbreviation start := (Extractor.start mii_type).

Lemma mkdir_one_lookup (q p : Path) (m : gmap Path node) :
  mkdir_one q m !! p
  = match m !! p with
    | Some n => Some n
    | None => if decide (p = q) then Some Dir else None
    end.
Proof.
  unfold mkdir_one. destruct (m !! q) as [n|] eqn:Hq.
  - destruct (m !! p) eqn:Hp; [done|]. case_decide; [congruence | done].
  - destruct (decide (p = q)) as [->|Hne].
    + by rewrite lookup_insert_eq, Hq.
    + rewrite lookup_insert_ne by done. by destruct (m !! p).
Qed.

(** Making directories neither adds, changes nor removes a file. *)
Lemma mkdir_keeps_files (l : list Path) (m : gmap Path node) (p : Path) (c : bytes) :
  foldr mkdir_one m l !! p = Some (File c) ↔ m !! p = Some (File c).
Proof.
  induction l as [|q l IH]; [done|]. cbn [foldr].
  rewrite mkdir_one_lookup, <- IH.
  destruct (foldr mkdir_one m l !! p) as [n|]; [done|].
  by case_decide.
Qed.

Lemma mkdir_parents_Return (d : Path) (fs fs1 : filesystem Path) :
  mkdir_parents d fs = Return fs1 →
  journal fs1 = journal fs ∧
  ∀ p c, nodes fs1 !! p = Some (File c) ↔ nodes fs !! p = Some (File c).
Proof.
  unfold mkdir_parents. destruct (refuses fs Mkdir d); [done|].
  destruct (nodes fs !! d) as [[?|]|]; intros; simplify_eq; cbn [journal nodes];
    (split; [done|]); intros p c; apply (mkdir_keeps_files (d :: parents d)).
Qed.

Lemma open_read_Return (p : Path) (fs : filesystem Path) (c : bytes) :
  open_read p fs = Return c → nodes fs !! p = Some (File c).
Proof.
  unfold open_read. destruct (refuses fs OpenRead p); [done|].
  destruct (nodes fs !! p) as [[?|]|]; by intros; simplify_eq.
Qed.

(** A call either fails before the loop, having written nothing, or runs
    the loop on the content of the source from the offset on. *)
Lemma extract_inv (fuel : nat) (input_file : option Path) (fs : filesystem Path)
    (o : outcome (list Path)) (fs' : filesystem Path) :
  extract fuel input_file fs = Some (o, fs') →
  (journal fs' = journal fs ∧ ∃ e, o = Raise e) ∨
  (∃ fs1 content o1,
      journal fs1 = journal fs ∧
      nodes fs !! source_file input_file = Some (File content) ∧
      loop fuel (start content) fs1 = Some (o1, fs') ∧
      o = match o1 with
          | Return st' => Return (extracted_files st')
          | Raise e => Raise (handler (source_file input_file) e)
          end).
Proof.
  unfold Extractor.extract_miis_from_type.
  destruct (path_exists (source_file input_file) fs);
    cbn [negb]; [|intros; simplify_eq; left; eauto].
  destruct (mkdir_parents output_dir fs) as [fs1|e] eqn:Hmk;
    [|intros; simplify_eq; left; eauto].
  apply mkdir_parents_Return in Hmk as [Hj Hfiles].
  destruct (open_read (source_file input_file) fs1) as [content|e] eqn:Hopen;
    [|intros; simplify_eq; left; eauto].
  apply open_read_Return, Hfiles in Hopen.
  destruct (loop fuel (start content) fs1) as [[[st'|e] fs2]|] eqn:Hloop;
    intros; simplify_eq; right.
  - by exists fs1, content, (Return st').
  - by exists fs1, content, (Raise e).
Qed.


Lemma written_for_paths (count : nat) (recs : list bytes) :
  (written_for mii_type output_dir count recs).*1
  = output_path <$> seq count (length recs).
Proof.
  revert count. induction recs as [|r recs IH]; intros count; [done|].
  rewrite written_for_cons. cbn [fmap list_fmap fst length seq]. f_equal. apply IH.
Qed.



(** C9: when the source does not exist the call raises [MiiExtractionError]
    and the file system is left as it was: no directory made, no file
    written. *)
Theorem missing_source_changes_nothing (fuel : nat) (input_file : option Path)
    (fs : filesystem Path) :
  path_exists (source_file input_file) fs = false →
  extract fuel input_file fs
  = Some (Raise (MiiExtractionError (path_str (source_file input_file) +:+ " not found")),
          fs).
Proof.
  intros Hmissing. unfold Extractor.extract_miis_from_type. by rewrite Hmissing.
Qed.

(** C2: a full record that equals the zero-filled buffer is passed over. The
    pass that reads it writes no file and leaves the counter, and with it the
    count held against the limit, as they were, and the loop goes on with the
    next record; and a stream with such a record put in at a record boundary
    gives the same files, the same list and the same counter as the stream
    without it. *)
Theorem empty_slot_is_skipped (fuel k : nat) (st : locals Path) (fs : filesystem Path)
    (pre post : bytes) (o : outcome (locals Path)) (fs' : filesystem Path) :
  length pre = (k * size)%nat →
  infile st = pre ++ post →
  loop fuel st fs = Some (o, fs') →
  body (with_infile st (empty_mii ++ post)) fs
    = (Return {| infile := post; mii_data := empty_mii; mii_count := mii_count st;
                 is_active := is_active st; extracted_files := extracted_files st |}, fs) ∧
  ∃ o', loop (S fuel) (with_infile st (pre ++ empty_mii ++ post)) fs = Some (o', fs') ∧
        same_result o o'.
Proof.
  intros Hpre Hst Hloop. split; [apply body_on_empty_slot|].
  by eapply loop_without_empty_slot.
Qed.

(** C3: with records of at least one byte the call comes to an end; the list
    it returns has at most [LIMIT] paths; the loop is left either with the
    counter at [LIMIT] or after a read of fewer than [SIZE] bytes; and such a
    read ends the loop without an exception. *)
Theorem emitted_at_most_limit (input_file : option Path) (fs : filesystem Path) :
  (0 < size)%nat →
  (∃ fuel r, extract fuel input_file fs = Some r) ∧
  (∀ fuel files fs',
     extract fuel input_file fs = Some (Return files, fs') →
     (length files ≤ limit)%nat) ∧
  (∀ fuel content fs1 st' fs',
     loop fuel (start content) fs1 = Some (Return st', fs') →
     (mii_count st' ≤ limit)%nat ∧
     (mii_count st' = limit ∨
      (is_active st' = false ∧ (length (mii_data st') < size)%nat))) ∧
  (∀ fuel st fs1,
     guard st = true → (length (infile st) < size)%nat →
     loop (S fuel) st fs1
     = Some (Return {| infile := []; mii_data := infile st; mii_count := mii_count st;
                       is_active := false; extracted_files := extracted_files st |}, fs1)).
Proof.
  intros Hsize. split; [|split; [|split]].
  - unfold Extractor.extract_miis_from_type.
    destruct (path_exists _ fs); cbn [negb]; [|by exists 0%nat; eexists].
    destruct (mkdir_parents output_dir fs) as [fs1|e]; [|by exists 0%nat; eexists].
    destruct (open_read _ fs1) as [content|e]; [|by exists 0%nat; eexists].
    exists (S (length content)).
    destruct (loop_terminates (S (length content)) (start content) fs1 Hsize)
      as [[[st'|e] fs2] ->]; [|by eexists..].
    cbn [Extractor.start infile]. rewrite length_drop. lia.
  - intros fuel files fs' [[_ [e ?]]|(fs1 & content & o1 & _ & _ & Hloop & Ho)]%extract_inv;
      [done|].
    destruct (loop_trace _ _ _ _ _ Hloop) as (recs & _ & _ & Hbound & Hret).
    destruct o1 as [st'|e]; [|done]. simplify_eq.
    destruct (Hret st' eq_refl) as [_ ->].
    cbn [Extractor.start mii_count extracted_files] in *.
    rewrite app_nil_l, length_fmap, length_seq. lia.
  - intros fuel content fs1 st' fs' Hloop.
    destruct (loop_trace _ _ _ _ _ Hloop) as (recs & _ & _ & Hbound & Hret).
    destruct (Hret st' eq_refl) as [Hcount _].
    cbn [Extractor.start mii_count] in *.
    split; [lia|].
    destruct (loop_exit _ _ _ _ _ Hloop) as [Hg Hread].
    unfold Extractor.guard in Hg. apply andb_false_iff in Hg as [Hoff|Hfull].
    + right. split; [done|]. apply Hread; [|done]. by cbn.
    + left. apply bool_decide_eq_false in Hfull. lia.
  - intros fuel st fs1 Hg Hshort. rewrite loop_step by done.
    pose proof (body_cases st fs1) as Hb.
    destruct (body st fs1) as [o1 fs2].
    inversion Hb as [_|Hempty|e Hfull Hne Hw|fs3 Hfull Hne Hw]; subst o1 fs2; clear Hb.
    + by rewrite loop_done.
    + apply (f_equal length) in Hempty.
      unfold Extractor.empty_mii in Hempty.
      rewrite length_take, length_replicate in Hempty. lia.
    + rewrite length_take in Hfull. lia.
    + rewrite length_take in Hfull. lia.
Qed.

(** C10: the list returned holds the paths of the files written, in the
    order in which they were written; its element [k] is [output_dir] joined
    with the prefix, [k] on five digits and [.mii], so that the numbers run
    from 0 without a gap; no path comes twice, joining being one-to-one on
    these names; and the counter ends at the length of the list. *)
Theorem returned_paths_are_files_written (fuel : nat) (input_file : option Path)
    (fs : filesystem Path) (files : list Path) (fs' : filesystem Path) :
  (∀ i j, output_path i = output_path j →
          Extractor.mii_name mii_type i = Extractor.mii_name mii_type j) →
  extract fuel input_file fs = Some (Return files, fs') →
  (∃ written : list (Path * bytes),
     journal fs' = journal fs ++ written ∧ written.*1 = files) ∧
  (∀ k, (k < length files)%nat →
        files !! k = Some (joinpath output_dir
                             (PREFIX mii_type +:+ Py.format_05d k +:+ ".mii"))) ∧
  NoDup files ∧
  (∀ content fs1 st' fs2,
     loop fuel (start content) fs1 = Some (Return st', fs2) →
     mii_count st' = length (extracted_files st')).
Proof.
  intros Hjoin [[_ [e ?]]|(fs1 & content & o1 & Hj & _ & Hloop & Ho)]%extract_inv; [done|].
  destruct (loop_trace _ _ _ _ _ Hloop) as (recs & Hj' & _ & _ & Hret).
  destruct o1 as [st'|e]; [|done]. simplify_eq.
  destruct (Hret st' eq_refl) as [_ Hfiles].
  cbn [Extractor.start mii_count extracted_files] in *. rewrite app_nil_l in Hfiles.
  rewrite Hfiles. split; [|split; [|split]].
  - eexists. split; [by rewrite Hj', Hj|]. apply written_for_paths.
  - intros k Hk. rewrite length_fmap, length_seq in Hk.
    rewrite list_lookup_fmap, lookup_seq_lt by done. reflexivity.
  - apply NoDup_fmap_2_strong; [|apply NoDup_seq].
    intros i j _ _ Heq. by apply Hjoin, mii_name_inj in Heq.
  - intros content' fs1' st'' fs2 Hloop'.
    destruct (loop_trace _ _ _ _ _ Hloop') as (recs' & _ & _ & _ & Hret').
    destruct (Hret' st'' eq_refl) as [-> ->].
    cbn [Extractor.start mii_count extracted_files].
    by rewrite app_nil_l, length_fmap, length_seq.
Qed.
(** *** The scan as a function of the source *)

Lemma blocks_fuel (fuel size' : nat) (s : bytes) :
  (0 < size')%nat → (length s ≤ fuel)%nat →
  blocks fuel size' s = blocks (length s) size' s.
Proof.
  intros Hsize. revert s. induction fuel as [fuel IH] using lt_wf_ind. intros s Hlen.
  destruct fuel as [|fuel].
  - by replace (length s) with 0%nat by lia.
  - destruct (length s) as [|n] eqn:Hn.
    + cbn [blocks]. rewrite Hn. by case_bool_decide; [|lia].
    + cbn [blocks]. rewrite Hn. case_bool_decide; [done|]. f_equal.
      rewrite (IH fuel ltac:(lia)) by (rewrite length_drop; lia).
      rewrite (IH n ltac:(lia)) by (rewrite length_drop; lia). done.
Qed.

Lemma writes_accepted_write (fs fs1 : filesystem Path) (k : nat) (c : bytes) :
  writes_accepted mii_type output_dir fs →
  write_file (output_path k) c fs = Return fs1 →
  writes_accepted mii_type output_dir fs1.
Proof.
  intros Hacc (Hnodes & Hrefuses & _)%write_file_Return k'.
  destruct (Hacc k') as [Hr Hn]. rewrite Hrefuses, Hnodes. split; [done|].
  destruct (decide (output_path k = output_path k')) as [->|Hne].
  - by rewrite lookup_insert_eq.
  - by rewrite lookup_insert_ne.
Qed.

Lemma writes_accepted_Return (fs : filesystem Path) (k : nat) (c : bytes) :
  writes_accepted mii_type output_dir fs →
  ∃ fs1, write_file (output_path k) c fs = Return fs1.
Proof.
  intros Hacc. destruct (Hacc k) as [Hr Hn]. unfold write_file. rewrite Hr.
  destruct (nodes fs !! output_path k) as [[?|]|]; by eauto.
Qed.

Lemma apply_writes_app (W1 W2 : list (Path * bytes)) (m : gmap Path node) :
  apply_writes (W1 ++ W2) m = apply_writes W2 (apply_writes W1 m).
Proof. apply foldl_app. Qed.

(** When no write is turned down, a run of the loop that is still active
    writes the records that follow in the stream, empty slots left out, up to
    the limit, and returns. *)
Lemma loop_scans (n : nat) :
  ∀ (fuel : nat) (st : locals Path) (fs : filesystem Path)
    (o : outcome (locals Path)) (fs' : filesystem Path),
    (0 < size)%nat → (length (infile st) ≤ n)%nat →
    is_active st = true →
    writes_accepted mii_type output_dir fs →
    loop fuel st fs = Some (o, fs') →
    let recs := take (limit - mii_count st)
                  (filter (λ r, r ≠ empty_mii) (blocks n size (infile st))) in
    let W := written_for mii_type output_dir (mii_count st) recs in
    (∃ st', o = Return st' ∧
            mii_count st' = (mii_count st + length recs)%nat ∧
            extracted_files st'
            = extracted_files st ++ (output_path <$> seq (mii_count st) (length recs))) ∧
    journal fs' = journal fs ++ W ∧
    nodes fs' = apply_writes W (nodes fs) ∧
    refuses fs' = refuses fs.
Proof.
  induction n as [n IH] using lt_wf_ind.
  intros fuel st fs o fs' Hsize Hlen Hact Hacc Hloop.
  destruct (guard st) eqn:Hg.
  2:{ rewrite loop_done in Hloop by done. simplify_eq.
      unfold Extractor.guard in Hg. rewrite Hact in Hg. cbn in Hg.
      apply bool_decide_eq_false in Hg.
      replace (limit - mii_count st)%nat with 0%nat by lia.
      rewrite take_0. cbn. rewrite !app_nil_r, Nat.add_0_r. split; [by eexists|done]. }
  apply guard_true in Hg as Hg'. destruct Hg' as [_ Hlt].
  destruct fuel as [|fuel]; [by rewrite loop_out_of_fuel in Hloop|].
  rewrite loop_step in Hloop by done.
  pose proof (body_cases st fs) as Hb.
  destruct (body st fs) as [o1 fs1].
  inversion Hb as [Hshort|Hempty|e Hfull Hne Hw|fs2 Hfull Hne Hw]; subst o1 fs1; clear Hb.
  - rewrite loop_done in Hloop by done. simplify_eq.
    assert (blocks n size (infile st) = []) as ->.
    { destruct n; [done|]. cbn [blocks]. by case_bool_decide; [|lia]. }
    rewrite filter_nil, take_nil. cbn. rewrite !app_nil_r, Nat.add_0_r.
    split; [by eexists|done].
  - assert (size ≤ length (infile st))%nat as Hge.
    { apply (f_equal length) in Hempty. unfold Extractor.empty_mii in Hempty.
      rewrite length_take, length_replicate in Hempty. lia. }
    destruct n as [|n]; [lia|]. cbn [blocks]. case_bool_decide; [lia|].
    rewrite filter_cons_False by (intros Hx; by apply Hx).
    apply (IH n ltac:(lia)) in Hloop; [exact Hloop | done | | done | done].
    cbn [infile]. rewrite length_drop. lia.
  - destruct (writes_accepted_Return fs (mii_count st) (take size (infile st) ++ mii_padding)
                Hacc) as [fs1 Hw']. unfold Extractor.mii_padding in *. congruence.
  - assert (size ≤ length (infile st))%nat as Hge by (rewrite length_take in Hfull; lia).
    destruct n as [|n]; [lia|]. cbn [blocks]. case_bool_decide; [lia|].
    rewrite filter_cons_True by done.
    replace (limit - mii_count st)%nat with (S (limit - S (mii_count st))) by lia.
    cbn [take].
    pose proof (writes_accepted_write _ _ _ _ Hacc Hw) as Hacc'.
    apply write_file_Return in Hw as (Hnodes & Hrefuses & Hj).
    apply (IH n ltac:(lia)) in Hloop; [| done | | done | done].
    2:{ cbn [infile]. rewrite length_drop. lia. }
    cbn [infile mii_count extracted_files is_active] in Hloop.
    destruct Hloop as ((st' & -> & Hcount & Hfiles) & Hj' & Hnodes' & Hrefuses').
    cbn zeta. rewrite written_for_cons. cbn [length seq fmap list_fmap].
    split; [|split; [|split]].
    + exists st'. split; [done|]. split; [lia|]. by rewrite Hfiles, <- app_assoc.
    + by rewrite Hj', Hj, <- app_assoc.
    + rewrite Hnodes', Hnodes. reflexivity.
    + by rewrite Hrefuses', Hrefuses.
Qed.
Lemma mkdir_parents_refuses (d : Path) (fs fs1 : filesystem Path) :
  mkdir_parents d fs = Return fs1 → refuses fs1 = refuses fs.
Proof.
  unfold mkdir_parents. destruct (refuses fs Mkdir d); [done|].
  destruct (nodes fs !! d) as [[?|]|]; by intros; simplify_eq.
Qed.

Lemma extract_scans (fuel : nat) (input_file : option Path)
    (fs fs1 : filesystem Path) (content : bytes) :
  (0 < size)%nat →
  (length content < fuel)%nat →
  nodes fs !! source_file input_file = Some (File content) →
  refuses fs OpenRead (source_file input_file) = None →
  mkdir_parents output_dir fs = Return fs1 →
  writes_accepted mii_type output_dir fs1 →
  let recs := scanned_records mii_type content in
  let W := written_for mii_type output_dir 0 recs in
  ∃ fs', extract fuel input_file fs
           = Some (Return (output_path <$> seq 0 (length recs)), fs') ∧
         journal fs' = journal fs ++ W ∧
         nodes fs' = apply_writes W (nodes fs1) ∧
         refuses fs' = refuses fs.
Proof.
  intros Hsize Hfuel Hsrc Hread Hmk Hacc recs W.
  unfold Extractor.extract_miis_from_type.
  assert (path_exists (source_file input_file) fs = true) as ->.
  { unfold path_exists. apply bool_decide_eq_true. by rewrite Hsrc. }
  cbn [negb]. rewrite Hmk.
  pose proof (mkdir_parents_refuses _ _ _ Hmk) as Hrefuses.
  apply mkdir_parents_Return in Hmk as [Hj Hfiles].
  assert (open_read (source_file input_file) fs1 = Return content) as ->.
  { unfold open_read. rewrite Hrefuses, Hread. by rewrite (proj2 (Hfiles _ _) Hsrc). }
  destruct (loop_terminates fuel (start content) fs1 Hsize) as [[o fs2] Hloop].
  { cbn [Extractor.start infile]. rewrite length_drop. lia. }
  rewrite Hloop.
  apply (loop_scans (length (drop (OFFSET mii_type) content))) in Hloop;
    [| done | done | done | done].
  cbn [Extractor.start infile mii_count extracted_files] in Hloop.
  rewrite Nat.sub_0_r, app_nil_l in Hloop.
  destruct Hloop as ((st' & -> & _ & Hfiles') & Hj' & Hnodes & Hrefuses').
  exists fs2. rewrite Hfiles'. split; [done|]. split; [by rewrite Hj', Hj|].
  split; [done | by rewrite Hrefuses'].
Qed.


(** *** What a call leaves alone *)

(** The ways through the function, before and after the directory is made. *)
Lemma extract_paths (fuel : nat) (input_file : option Path) (fs : filesystem Path)
    (o : outcome (list Path)) (fs' : filesystem Path) :
  extract fuel input_file fs = Some (o, fs') →
  (path_exists (source_file input_file) fs = false ∧ fs' = fs ∧
   o = Raise (MiiExtractionError (path_str (source_file input_file) +:+ " not found"))) ∨
  (∃ e, mkdir_parents output_dir fs = Raise e ∧ fs' = fs ∧ o = Raise e) ∨
  (∃ fs1, mkdir_parents output_dir fs = Return fs1 ∧
     ((∃ e, open_read (source_file input_file) fs1 = Raise e ∧ fs' = fs1 ∧
            o = Raise (handler (source_file input_file) e)) ∨
      (∃ content o1,
         open_read (source_file input_file) fs1 = Return content ∧
         loop fuel (start content) fs1 = Some (o1, fs') ∧
         o = match o1 with
             | Return st' => Return (extracted_files st')
             | Raise e => Raise (handler (source_file input_file) e)
             end))).
Proof.
  unfold Extractor.extract_miis_from_type.
  destruct (path_exists (source_file input_file) fs);
    cbn [negb]; [|intros; simplify_eq; by left].
  destruct (mkdir_parents output_dir fs) as [fs1|e] eqn:Hmk;
    [|intros; simplify_eq; right; left; by exists e].
  destruct (open_read (source_file input_file) fs1) as [content|e] eqn:Hopen;
    [|intros; simplify_eq; right; right; exists fs'; split; [done|]; left; by exists e].
  destruct (loop fuel (start content) fs1) as [[[st'|e] fs2]|] eqn:Hloop;
    intros; simplify_eq; right; right; exists fs1; (split; [done|]); right.
  - by exists content, (Return st').
  - by exists content, (Raise e).
Qed.



Lemma write_file_not_dir (p : Path) (c : bytes) (fs fs1 : filesystem Path) :
  write_file p c fs = Return fs1 → nodes fs !! p ≠ Some Dir.
Proof.
  unfold write_file. destruct (refuses fs OpenWrite p); [done|].
  by destruct (nodes fs !! p) as [[?|]|].
Qed.

(** The loop changes the file system at output paths only, and there it
    puts files where no directory was. *)
Lemma loop_frame (fuel : nat) (st : locals Path) (fs : filesystem Path)
    (o : outcome (locals Path)) (fs' : filesystem Path) :
  loop fuel st fs = Some (o, fs') →
  refuses fs' = refuses fs ∧
  ∀ p, nodes fs' !! p = nodes fs !! p ∨
       (∃ k c, p = output_path k ∧ nodes fs' !! p = Some (File c) ∧
               nodes fs !! p ≠ Some Dir).
Proof.
  revert st fs. induction fuel as [|fuel IH]; intros st fs Hloop;
    (destruct (guard st) eqn:Hg;
     [| rewrite loop_done in Hloop by done; simplify_eq; by split; [|left]]).
  - by rewrite loop_out_of_fuel in Hloop.
  - rewrite loop_step in Hloop by done.
    pose proof (body_cases st fs) as Hb.
    destruct (body st fs) as [o1 fs1].
    inversion Hb as [Hshort|Hempty|e Hfull Hne Hw|fs2 Hfull Hne Hw]; subst o1 fs1; clear Hb.
    + by eapply IH.
    + by eapply IH.
    + simplify_eq. by split; [|left].
    + pose proof (write_file_not_dir _ _ _ _ Hw) as Hnd.
      apply write_file_Return in Hw as (Hnodes & Hrefuses & _).
      apply IH in Hloop as [Hrefuses' Hframe].
      split; [by rewrite Hrefuses', Hrefuses|]. intros p.
      destruct (decide (p = output_path (mii_count st))) as [->|Hp].
      * right. destruct (Hframe (output_path (mii_count st))) as [Heq|(k & c & _ & Hc & _)].
        -- rewrite Hnodes, lookup_insert_eq in Heq. by eauto 6.
        -- by eauto 6.
      * destruct (Hframe p) as [Heq|(k & c & -> & Hc & Hnd')].
        -- left. by rewrite Heq, Hnodes, lookup_insert_ne.
        -- right. exists k, c. split; [done|]. split; [done|].
           by rewrite Hnodes, lookup_insert_ne in Hnd'.
Qed.

Lemma mkdir_keeps_nodes (l : list Path) (m : gmap Path node) (p : Path) :
  foldr mkdir_one m l !! p = m !! p ∨
  (m !! p = None ∧ foldr mkdir_one m l !! p = Some Dir).
Proof.
  induction l as [|q l IH]; [by left|]. cbn [foldr]. rewrite mkdir_one_lookup.
  destruct IH as [->|[Hnone ->]]; [|by right].
  destruct (m !! p) eqn:Hp; [by left|]. case_decide; [by right | by left].
Qed.

Lemma mkdir_parents_dir (d : Path) (fs fs1 : filesystem Path) :
  mkdir_parents d fs = Return fs1 →
  nodes fs1 !! d = Some Dir ∧
  ∀ p, nodes fs !! p = Some Dir → nodes fs1 !! p = Some Dir.
Proof.
  unfold mkdir_parents. destruct (refuses fs Mkdir d); [done|]. intros Hmk.
  assert (nodes fs !! d ≠ None → nodes fs !! d = Some Dir) as Hd
    by (by destruct (nodes fs !! d) as [[c|]|]).
  assert (nodes fs1 = foldr mkdir_one (nodes fs) (d :: parents d)) as ->
    by (destruct (nodes fs !! d) as [[c|]|]; by simplify_eq).
  split.
  - cbn [foldr]. rewrite mkdir_one_lookup.
    destruct (mkdir_keeps_nodes (parents d) (nodes fs) d) as [Heq|[_ Heq]];
      rewrite Heq; [|done].
    destruct (nodes fs !! d) eqn:Hd'; [by apply Hd | by case_decide].
  - intros p Hp.
    destruct (mkdir_keeps_nodes (d :: parents d) (nodes fs) p) as [Heq|[Hn _]];
      [by rewrite Heq | congruence].
Qed.

(** X11: a call changes no file but those at the output paths, the source
    among them when it is no output path, and replaces no directory by a
    file; it leaves the answers of the operating system as they were; and
    when it returns a list, the output directory is there. *)
Theorem extract_leaves_other_files (fuel : nat) (input_file : option Path)
    (fs : filesystem Path) (o : outcome (list Path)) (fs' : filesystem Path) :
  extract fuel input_file fs = Some (o, fs') →
  refuses fs' = refuses fs ∧
  (∀ p c, (∀ k, p ≠ output_path k) →
          nodes fs' !! p = Some (File c) ↔ nodes fs !! p = Some (File c)) ∧
  (∀ p, nodes fs !! p = Some Dir → nodes fs' !! p = Some Dir) ∧
  (∀ files, o = Return files → nodes fs' !! output_dir = Some Dir).
Proof.
  intros Hrun.
  destruct (extract_paths _ _ _ _ _ Hrun)
    as [(_ & -> & ->)|[(e & _ & -> & ->)|(fs1 & Hmk & Hrest)]]; [done..|].
  pose proof (mkdir_parents_refuses _ _ _ Hmk) as Hrefuses.
  pose proof (mkdir_parents_dir _ _ _ Hmk) as [Hdir Hdirs].
  apply mkdir_parents_Return in Hmk as [_ Hfiles].
  destruct Hrest as [(e & _ & -> & ->)|(content & o1 & _ & Hloop & ->)]; [done|].
  apply loop_frame in Hloop as [Hrefuses' Hframe].
  split; [by rewrite Hrefuses', Hrefuses|]. split; [|split].
  - intros p c Hp. rewrite <- Hfiles.
    destruct (Hframe p) as [->|(k & _ & -> & _)]; [done|]. by destruct (Hp k).
  - intros p Hp%Hdirs.
    destruct (Hframe p) as [->|(_ & _ & _ & _ & Hnd)]; done.
  - intros files _.
    destruct (Hframe output_dir) as [->|(_ & _ & _ & _ & Hnd)]; done.
Qed.
(** *** Running the call again *)

Lemma apply_writes_cons (w : Path * bytes) (W : list (Path * bytes)) (m : gmap Path node) :
  apply_writes (w :: W) m = apply_writes W (<[w.1 := File w.2]> m).
Proof. reflexivity. Qed.

Lemma apply_writes_lookup (W : list (Path * bytes)) (m : gmap Path node) (p : Path) :
  apply_writes W m !! p = m !! p ∨
  (∃ c, (p, c) ∈ W ∧ apply_writes W m !! p = Some (File c)).
Proof.
  revert m. induction W as [|[q d] W IH]; intros m; [by left|].
  rewrite apply_writes_cons. cbn [fst snd].
  destruct (IH (<[q := File d]> m)) as [Heq|(c & Hc & Heq)].
  - destruct (decide (p = q)) as [->|Hne].
    + right. exists d. split; [apply list_elem_of_here|]. by rewrite Heq, lookup_insert_eq.
    + left. by rewrite Heq, lookup_insert_ne.
  - right. exists c. split; [by apply list_elem_of_further | done].
Qed.

(** A write done last wins over the same write done first. *)
Lemma apply_writes_absorb (W : list (Path * bytes)) (m : gmap Path node)
    (p : Path) (n n' : node) :
  <[p := n]> (apply_writes W (<[p := n']> m)) = <[p := n]> (apply_writes W m).
Proof.
  revert m. induction W as [|[q d] W IH]; intros m.
  - cbn. apply insert_insert_eq.
  - rewrite !apply_writes_cons. cbn [fst snd].
    destruct (decide (q = p)) as [->|Hne].
    + by rewrite insert_insert_eq.
    + rewrite (insert_insert_ne m) by done. apply IH.
Qed.

(** Doing the same writes a second time changes nothing. *)
Lemma apply_writes_idem (W : list (Path * bytes)) (m : gmap Path node) :
  apply_writes W (apply_writes W m) = apply_writes W m.
Proof.
  revert m. induction W as [|[p c] W IH] using rev_ind; intros m; [done|].
  rewrite !apply_writes_app. cbn [apply_writes foldl fst snd].
  fold (apply_writes W m). fold (apply_writes W (<[p := File c]> (apply_writes W m))).
  by rewrite apply_writes_absorb, IH.
Qed.

Lemma mkdir_noop (l : list Path) (m : gmap Path node) :
  (∀ q, q ∈ l → is_Some (m !! q)) → foldr mkdir_one m l = m.
Proof.
  induction l as [|q l IH]; intros Hall; [done|]. cbn [foldr].
  rewrite IH by (intros q' Hq'; apply Hall; by apply list_elem_of_further).
  unfold mkdir_one. destruct (Hall q (list_elem_of_here _ _)) as [n ->]. done.
Qed.

Lemma mkdir_present (l : list Path) (m : gmap Path node) (q : Path) :
  q ∈ l → is_Some (foldr mkdir_one m l !! q).
Proof.
  induction l as [|q' l IH]; [by intros ?%elem_of_nil|].
  intros [->|Hq]%elem_of_cons; cbn [foldr]; rewrite mkdir_one_lookup.
  - destruct (foldr mkdir_one m l !! q'); [by eexists|]. case_decide; [by eexists | done].
  - destruct (IH Hq) as [n ->]. by eexists.
Qed.

(** Making the directory again, after a run that went past it, is accepted
    and changes nothing. *)
Lemma mkdir_parents_again (fs fs1 fs' : filesystem Path) (W : list (Path * bytes)) :
  mkdir_parents output_dir fs = Return fs1 →
  nodes fs' = apply_writes W (nodes fs1) →
  refuses fs' = refuses fs →
  (∀ c, (output_dir, c) ∉ W) →
  mkdir_parents output_dir fs' = Return fs'.
Proof.
  intros Hmk Hnodes Hrefuses Hout.
  pose proof (mkdir_parents_dir _ _ _ Hmk) as [Hdir _].
  assert (refuses fs Mkdir output_dir = None) as Hmkdir.
  { unfold mkdir_parents in Hmk. by destruct (refuses fs Mkdir output_dir). }
  assert (∀ q, q ∈ output_dir :: parents output_dir → is_Some (nodes fs' !! q)) as Hall.
  { intros q Hq. rewrite Hnodes.
    assert (is_Some (nodes fs1 !! q)) as [n Hn].
    { assert (nodes fs1 = foldr mkdir_one (nodes fs) (output_dir :: parents output_dir))
        as -> by (unfold mkdir_parents in Hmk; rewrite Hmkdir in Hmk;
                  destruct (nodes fs !! output_dir) as [[c|]|]; by simplify_eq).
      by apply mkdir_present. }
    destruct (apply_writes_lookup W (nodes fs1) q) as [->|(c & _ & ->)]; by eexists. }
  unfold mkdir_parents. rewrite Hrefuses, Hmkdir.
  assert (nodes fs' !! output_dir = Some Dir) as ->.
  { rewrite Hnodes.
    destruct (apply_writes_lookup W (nodes fs1) output_dir) as [->|(c & Hc & _)]; [done|].
    by destruct (Hout c). }
  rewrite mkdir_noop by done. rewrite <- Hrefuses. by destruct fs'.
Qed.

Lemma written_for_output_path (count : nat) (recs : list bytes) (p : Path) (c : bytes) :
  (p, c) ∈ written_for mii_type output_dir count recs → ∃ k, p = output_path k.
Proof.
  intros Hin. apply (list_elem_of_fmap_2 fst) in Hin. rewrite written_for_paths in Hin.
  cbn [fst] in Hin. apply list_elem_of_fmap in Hin as (k & -> & _). by exists k.
Qed.

(** X12: under the conditions of a full scan, and when the source is none of
    the output paths, running the call a second time on what the first run
    left returns the same list and leaves every file and directory as the
    first run left it. *)
Theorem second_run_changes_nothing (fuel : nat) (input_file : option Path)
    (fs fs1 : filesystem Path) (content : bytes) :
  (0 < size)%nat →
  (length content < fuel)%nat →
  nodes fs !! source_file input_file = Some (File content) →
  refuses fs OpenRead (source_file input_file) = None →
  mkdir_parents output_dir fs = Return fs1 →
  writes_accepted mii_type output_dir fs1 →
  (∀ k, output_path k ≠ source_file input_file) →
  ∃ files fs' fs'',
    extract fuel input_file fs = Some (Return files, fs') ∧
    extract fuel input_file fs' = Some (Return files, fs'') ∧
    nodes fs'' = nodes fs' ∧
    refuses fs'' = refuses fs'.
Proof.
  intros Hsize Hfuel Hsrc Hread Hmk Hacc Hsource.
  destruct (extract_scans fuel input_file fs fs1 content Hsize Hfuel Hsrc Hread Hmk Hacc)
    as (fs' & Hrun & _ & Hnodes & Hrefuses).
  set (W := written_for mii_type output_dir 0 (scanned_records mii_type content)) in *.
  pose proof (mkdir_parents_dir _ _ _ Hmk) as [Hdir _].
  assert (∀ p, (∀ k, p ≠ output_path k) → nodes fs' !! p = nodes fs1 !! p) as Hother.
  { intros p Hp. rewrite Hnodes.
    destruct (apply_writes_lookup W (nodes fs1) p) as [->|(c & Hc & _)]; [done|].
    apply written_for_output_path in Hc as [k ->]. by destruct (Hp k). }
  assert (∀ k, output_dir ≠ output_path k) as Hout.
  { intros k Heq. destruct (Hacc k) as [_ Hnd]. by rewrite <- Heq in Hnd. }
  assert (mkdir_parents output_dir fs' = Return fs') as Hmk'.
  { apply (mkdir_parents_again fs fs1 fs' W); [done..|].
    intros c Hc. apply written_for_output_path in Hc as [k Hk]. by destruct (Hout k). }
  assert (writes_accepted mii_type output_dir fs') as Hacc'.
  { intros k. destruct (Hacc k) as [Hr Hnd].
    rewrite Hrefuses, <- (mkdir_parents_refuses _ _ _ Hmk), Hr. split; [done|].
    rewrite Hnodes.
    destruct (apply_writes_lookup W (nodes fs1) (output_path k)) as [->|(c & _ & ->)]; done. }
  assert (nodes fs' !! source_file input_file = Some (File content)) as Hsrc'.
  { rewrite Hother by (intros k Heq; by destruct (Hsource k)).
    by apply (mkdir_parents_Return _ _ _ Hmk). }
  destruct (extract_scans fuel input_file fs' fs' content Hsize Hfuel Hsrc'
              ltac:(by rewrite Hrefuses) Hmk' Hacc')
    as (fs'' & Hrun' & _ & Hnodes' & Hrefuses').
  eexists; exists fs', fs''. split; [exact Hrun|]. split; [exact Hrun'|]. split; [|done].
  fold W in Hnodes'. by rewrite Hnodes', Hnodes, apply_writes_idem.
Qed.

Lemma extract_length_le (fuel : nat) (input_file : option Path) (fs : filesystem Path)
    (files : list Path) (fs' : filesystem Path) :
  extract fuel input_file fs = Some (Return files, fs') → (length files ≤ limit)%nat.
Proof.
  intros [[_ [e ?]]|(fs1 & content & o1 & _ & _ & Hloop & Ho)]%extract_inv; [done|].
  destruct (loop_trace _ _ _ _ _ Hloop) as (recs & _ & _ & Hbound & Hret).
  destruct o1 as [st'|e]; [|done]. simplify_eq.
  destruct (Hret st' eq_refl) as [_ ->].
  cbn [Extractor.start mii_count extracted_files] in *.
  rewrite app_nil_l, length_fmap, length_seq. lia.
Qed.
End ExtractProperties.

(** ** The scanner on a small source *)

Section Demo.
Import FS Extractor StrPath.

Lemma string_join_injective (d a b : string) : joinpath d a = joinpath d b → a = b.
Proof. cbn. by intros ?%String.app_inj%String.app_inj. Qed.


Lemma empty_slot_is_skipped_witness :
  length [x01; x02] = (1 * SIZE demo)%nat ∧
  infile demo_start = [x01; x02] ++ [x00; x03; x04] ∧
  loop demo "out" 10 demo_start demo_fs
    = Some (Return (demo_end []), demo_loop_fs_after) ∧
  body demo "out" (with_infile demo_start (empty_mii demo ++ [x00; x03; x04])) demo_fs
    = (Return {| infile := [x00; x03; x04]; mii_data := empty_mii demo;
                 mii_count := mii_count demo_start;
                 is_active := is_active demo_start;
                 extracted_files := extracted_files demo_start |}, demo_fs) ∧
  ∃ o', loop demo "out" 11
          (with_infile demo_start ([x01; x02] ++ empty_mii demo ++ [x00; x03; x04]))
          demo_fs
        = Some (o', demo_loop_fs_after) ∧
        same_result (Return (demo_end [])) o'.
Proof.
  assert (loop demo "out" 10 demo_start demo_fs
          = Some (Return (demo_end []), demo_loop_fs_after)) as Hrun
    by (vm_compute; reflexivity).
  split; [reflexivity|]. split; [reflexivity|]. split; [exact Hrun|].
  exact (empty_slot_is_skipped demo "out" 10 1 demo_start demo_fs
           [x01; x02] [x00; x03; x04] _ _ eq_refl eq_refl Hrun).
Defined.

Lemma emitted_at_most_limit_witness :
  (0 < SIZE demo)%nat ∧
  (∃ fuel r, extract_miis_from_type demo "out" fuel None demo_fs = Some r) ∧
  (∀ fuel files fs',
     extract_miis_from_type demo "out" fuel None demo_fs = Some (Return files, fs') →
     (length files ≤ LIMIT demo)%nat) ∧
  (∀ fuel content (fs1 : filesystem string) st' fs',
     loop demo "out" fuel (start demo content) fs1 = Some (Return st', fs') →
     (mii_count st' ≤ LIMIT demo)%nat ∧
     (mii_count st' = LIMIT demo ∨
      (is_active st' = false ∧ (length (mii_data st') < SIZE demo)%nat))) ∧
  (∀ fuel (st : locals string) (fs1 : filesystem string),
     guard demo st = true → (length (infile st) < SIZE demo)%nat →
     loop demo "out" (S fuel) st fs1
     = Some (Return {| infile := []; mii_data := infile st; mii_count := mii_count st;
                       is_active := false; extracted_files := extracted_files st |}, fs1)).
Proof.
  assert (0 < SIZE demo)%nat as Hsize by (cbn; lia).
  split; [exact Hsize|].
  exact (emitted_at_most_limit demo "out" None demo_fs Hsize).
Defined.

Lemma missing_source_changes_nothing_witness :
  path_exists (source_file demo (Some "missing.dat")) demo_fs = false ∧
  extract_miis_from_type demo "out" 10 (Some "missing.dat") demo_fs
  = Some (Raise (MiiExtractionError "missing.dat not found"), demo_fs).
Proof.
  assert (path_exists (source_file demo (Some "missing.dat")) demo_fs = false) as Hmissing
    by (vm_compute; reflexivity).
  split; [exact Hmissing|].
  exact (missing_source_changes_nothing demo "out" 10 (Some "missing.dat") demo_fs Hmissing).
Defined.

Lemma returned_paths_are_files_written_witness :
  (∀ i j, output_path demo "out" i = output_path demo "out" j →
          mii_name demo i = mii_name demo j) ∧
  extract_miis_from_type demo "out" 10 None demo_fs
    = Some (Return demo_files, demo_fs_after) ∧
  (∃ written : list (string * bytes),
     journal demo_fs_after = journal demo_fs ++ written ∧ written.*1 = demo_files) ∧
  (∀ k, (k < length demo_files)%nat →
        demo_files !! k = Some (joinpath "out"
                                  (PREFIX demo +:+ Py.format_05d k +:+ ".mii"))) ∧
  NoDup demo_files ∧
  (∀ content (fs1 : filesystem string) st' fs2,
     loop demo "out" 10 (start demo content) fs1 = Some (Return st', fs2) →
     mii_count st' = length (extracted_files st')).
Proof.
  assert (∀ i j, output_path demo "out" i = output_path demo "out" j →
                 mii_name demo i = mii_name demo j) as Hjoin
    by (intros i j; apply string_join_injective).
  assert (extract_miis_from_type demo "out" 10 None demo_fs
          = Some (Return demo_files, demo_fs_after)) as Hrun
    by (vm_compute; reflexivity).
  split; [exact Hjoin|]. split; [exact Hrun|].
  exact (returned_paths_are_files_written demo "out" 10 None demo_fs _ _ Hjoin Hrun).
Defined.
Lemma demo_output_path_fresh (k : nat) :
  output_path demo "out" k ≠ "out" ∧ output_path demo "out" k ≠ "db.dat".
Proof.
  unfold output_path. cbn [joinpath string_path].
  split; intros Heq; rewrite !append_String, ?append_empty in Heq; by simplify_eq.
Qed.

Lemma demo_writes_accepted : writes_accepted demo "out" demo_fs_dir.
Proof.
  intros k. split; [done|]. destruct (demo_output_path_fresh k) as [Hout Hsrc].
  cbn [nodes demo_fs_dir].
  rewrite lookup_insert_ne, lookup_singleton_ne by done. done.
Qed.



Lemma extract_leaves_other_files_witness :
  extract_miis_from_type demo "out" 10 None demo_fs
    = Some (Return demo_files, demo_fs_after) ∧
  refuses demo_fs_after = refuses demo_fs ∧
  (∀ p c, (∀ k, p ≠ output_path demo "out" k) →
          nodes demo_fs_after !! p = Some (File c) ↔ nodes demo_fs !! p = Some (File c)) ∧
  (∀ p, nodes demo_fs !! p = Some Dir → nodes demo_fs_after !! p = Some Dir) ∧
  (∀ files, @Return (list string) demo_files = Return files →
            nodes demo_fs_after !! "out" = Some Dir).
Proof.
  assert (extract_miis_from_type demo "out" 10 None demo_fs
          = Some (Return demo_files, demo_fs_after)) as Hrun
    by (vm_compute; reflexivity).
  split; [exact Hrun|].
  exact (extract_leaves_other_files demo "out" 10 None demo_fs _ _ Hrun).
Defined.

Lemma second_run_changes_nothing_witness :
  (0 < SIZE demo)%nat ∧ (length demo_content < 10)%nat ∧
  nodes demo_fs !! source_file demo None = Some (File demo_content) ∧
  refuses demo_fs OpenRead (source_file demo None) = None ∧
  mkdir_parents "out" demo_fs = Return demo_fs_dir ∧
  writes_accepted demo "out" demo_fs_dir ∧
  (∀ k, output_path demo "out" k ≠ source_file demo None) ∧
  ∃ files fs' fs'',
    extract_miis_from_type demo "out" 10 None demo_fs = Some (Return files, fs') ∧
    extract_miis_from_type demo "out" 10 None fs' = Some (Return files, fs'') ∧
    nodes fs'' = nodes fs' ∧
    refuses fs'' = refuses fs'.
Proof.
  assert (0 < SIZE demo)%nat as Hsize by (cbn; lia).
  assert (length demo_content < 10)%nat as Hfuel by (cbn; lia).
  assert (nodes demo_fs !! source_file demo None = Some (File demo_content)) as Hsrc
    by (vm_compute; reflexivity).
  assert (mkdir_parents "out" demo_fs = Return demo_fs_dir) as Hmk
    by (vm_compute; reflexivity).
  assert (∀ k, output_path demo "out" k ≠ source_file demo None) as Hfresh
    by (intros k; apply demo_output_path_fresh).
  split; [exact Hsize|]. split; [exact Hfuel|]. split; [exact Hsrc|].
  split; [reflexivity|]. split; [exact Hmk|]. split; [exact demo_writes_accepted|].
  split; [exact Hfresh|].
  exact (second_run_changes_nothing demo "out" 10 None demo_fs demo_fs_dir demo_content
           Hsize Hfuel Hsrc eq_refl Hmk demo_writes_accepted Hfresh).
Defined.
End Demo.

(** ** The command that extracts every type *)

Section MainProperties.
Import FS Extractor.
Context `{PathOps Path}.

(** X13: [extract] over all the types never ends with a
    [MiiExtractionError]; the total it reports is at most the sum of the
    limits of the types, on top of what it started from; and when the source
    of no type is there it reports what it started from and changes
    nothing. *)
Theorem extract_all_total (fuel : nat) (types : list MiiType) (output_dir : Path)
    (total : nat) (fs : filesystem Path) (o : outcome nat) (fs' : filesystem Path) :
  Main.extract_all fuel types output_dir total fs = Some (o, fs') →
  (∀ msg, o ≠ Raise (MiiExtractionError msg)) ∧
  (∀ n, o = Return n → (total ≤ n ≤ total + sum_list_with LIMIT types)%nat) ∧
  (Forall (λ t, path_exists (source_file t None) fs = false) types →
   o = Return total ∧ fs' = fs).
Proof.
  revert total fs. induction types as [|t rest IH]; intros total fs Hrun.
  - cbn in Hrun. simplify_eq. cbn. split; [done|]. split; [|done].
    intros n ?; simplify_eq; lia.
  - cbn [Main.extract_all] in Hrun.
    assert (path_exists (source_file t None) fs = false →
            extract_miis_from_type t output_dir fuel None fs
            = Some (Raise (MiiExtractionError (path_str (source_file t None) +:+ " not found")),
                    fs)) as Hmissing
      by (intros Hm; unfold extract_miis_from_type; by rewrite Hm).
    destruct (extract_miis_from_type t output_dir fuel None fs) as [[[files|e] fs1]|] eqn:Hx;
      [| |done].
    + pose proof (extract_length_le _ _ _ _ _ _ _ Hx) as Hle.
      destruct (IH _ _ Hrun) as (Hne & Hbound & _).
      split; [done|]. split.
      * intros n Hn. specialize (Hbound n Hn). cbn [sum_list_with]. lia.
      * intros [Hm _]%Forall_cons. specialize (Hmissing Hm). by simplify_eq.
    + assert ((∃ msg, e = MiiExtractionError msg ∧
                      Main.extract_all fuel rest output_dir total fs1 = Some (o, fs')) ∨
              ((∀ msg, e ≠ MiiExtractionError msg) ∧ o = Raise e ∧ fs' = fs1)) as Hcase
        by (destruct e; first [by left; eauto | by right; simplify_eq]).
      destruct Hcase as [(msg & -> & Hrest)|(Hne & -> & ->)].
      * destruct (IH _ _ Hrest) as (Hne & Hbound & Hnone).
        split; [done|]. split.
        -- intros n Hn. specialize (Hbound n Hn). cbn [sum_list_with]. lia.
        -- intros [Hm Hall]%Forall_cons. specialize (Hmissing Hm). simplify_eq.
           by apply Hnone.
      * split; [by intros msg ?; simplify_eq; destruct (Hne msg)|]. split; [done|].
        intros [Hm _]%Forall_cons. specialize (Hmissing Hm).
        injection Hmissing as He _. by destruct (Hne _ He).
Qed.

End MainProperties.

Lemma extract_all_total_witness :
  Main.extract_all 10 [StrPath.demo_absent; StrPath.demo] "out" 0 StrPath.demo_fs
    = Some (Return 2%nat, StrPath.demo_fs_after) ∧
  (∀ msg, @Return nat 2%nat ≠ Raise (MiiExtractionError msg)) ∧
  (∀ n, @Return nat 2%nat = Return n →
        (0 ≤ n ≤ 0 + sum_list_with Extractor.LIMIT [StrPath.demo_absent; StrPath.demo])%nat) ∧
  (Forall (λ t, FS.path_exists (Extractor.source_file t None) StrPath.demo_fs = false)
     [StrPath.demo_absent; StrPath.demo] →
   @Return nat 2%nat = Return 0%nat ∧ StrPath.demo_fs_after = StrPath.demo_fs).
Proof.
  assert (Main.extract_all 10 [StrPath.demo_absent; StrPath.demo] "out" 0 StrPath.demo_fs
          = Some (Return 2%nat, StrPath.demo_fs_after)) as Hrun
    by (vm_compute; reflexivity).
  split; [exact Hrun|].
  exact (extract_all_total 10 [StrPath.demo_absent; StrPath.demo] "out" 0 StrPath.demo_fs
           _ _ Hrun).
Defined.
